(** * Bionic reader: the client-side formatter and the upload handler

    The repository is one file, [Untitled-1.py]: a Flask application whose
    page template carries the client-side JavaScript.  This development
    embeds

    - the JavaScript functions [escapeHtml], [bionicWrapText], [applyStyles],
      [updateLineHeightLabel], [renderText] and the [DOMContentLoaded]
      listener (module [JS]), over JavaScript strings (sequences of UTF-16
      code units) and JavaScript numbers (IEEE-754 binary64, module [Num]);
    - the Python functions [allowed_file], [index] and [upload_file]
      (module [Py]), over an explicit server state: the upload directory and
      the flashed messages.

    The definitions come first; the modules [NumFacts], [JSFacts],
    [JSExtra], [PyFacts], [PyExtra] and [Examples] hold the proofs. *)

From Stdlib Require Import ZArith Lia List Bool String Ascii.
From Stdlib Require Import DecimalString.
From Stdlib Require Import Floats.
From stdpp Require Import gmap strings.
Import ListNotations.

Local Open Scope Z_scope.

(** ** JavaScript numbers

    A JavaScript [Number] is an IEEE-754 binary64 value.  Every finite
    binary64 value is an integer multiple of [2^-1074] (the smallest
    subnormal), so a finite number is kept as that integer: [Fin u] is the
    value [u * 2^-1074].  Arithmetic is the exact operation followed by
    rounding to nearest, ties to even, with overflow to an infinity.  The
    sign of zero is not represented ([Fin 0] stands for both zeros); none of
    the modelled functions divides by a zero or inspects its sign. *)
Module Num.

Inductive number : Type :=
| NaN
| NegInf
| Fin (u : Z)
| PosInf.

(** Exponent of the unit: [Fin u] is [u / 2^ebias]. *)
Definition ebias : Z := 1074.
Definition unit_den : Z := 2 ^ ebias.

(** Precision of the significand, and the first magnitude (in units) that
    overflows: [2^1024] is [2^2098] units. *)
Definition prec : Z := 53.
Definition overflow_at : Z := 2 ^ 2098.

(** Round the rational [n / d] ([0 <= n], [0 < d]) to the nearest integer,
    ties to the even one. *)
Definition rne (n d : Z) : Z :=
  let q := n / d in
  match (2 * (n mod d) ?= d) with
  | Lt => q
  | Gt => q + 1
  | Eq => if Z.even q then q else q + 1
  end.

(** Spacing exponent of the binade that holds [n / d] units: values below
    [2^53] units (subnormals and the first normal binade) are one unit
    apart. *)
Definition ulp_exp (n d : Z) : Z := Z.max 0 (Z.log2 (n / d) - (prec - 1)).

(** Round the non-negative rational [n / d] (in units) to binary64, as a
    number of units, before the overflow test. *)
Definition round_units (n d : Z) : Z :=
  let e := ulp_exp n d in rne n (d * 2 ^ e) * 2 ^ e.

Definition round_pos (n d : Z) : number :=
  let u := round_units n d in
  if u <? overflow_at then Fin u else PosInf.

Definition neg (x : number) : number :=
  match x with
  | NaN => NaN
  | NegInf => PosInf
  | Fin u => Fin (- u)
  | PosInf => NegInf
  end.

(** Round the rational [n / d] units, [0 < d], of either sign. *)
Definition round_q (n d : Z) : number :=
  if n <? 0 then neg (round_pos (- n) d) else round_pos n d.

(** The Number for a mathematical integer (what [parseInt] and [length]
    return). *)
Definition of_Z (z : Z) : number := round_q (z * unit_den) 1.
Definition of_nat (n : nat) : number := of_Z (Z.of_nat n).

(** The Number denoted by the decimal literal [n / d], e.g. [0.05]. *)
Definition literal (n d : Z) : number := round_q (n * unit_den) d.

Definition sign_inf (negative : bool) : number :=
  if negative then NegInf else PosInf.

(** [x / y] *)
Definition div (x y : number) : number :=
  match x, y with
  | NaN, _ | _, NaN => NaN
  | Fin a, Fin b =>
      if b =? 0 then (if a =? 0 then NaN else sign_inf (a <? 0))
      else if 0 <? b then round_q (a * unit_den) b
      else round_q (- a * unit_den) (- b)
  | Fin _, (PosInf | NegInf) => Fin 0
  | PosInf, Fin b => sign_inf (b <? 0)
  | NegInf, Fin b => sign_inf (negb (b <? 0))
  | (PosInf | NegInf), (PosInf | NegInf) => NaN
  end.

(** [x * y] *)
Definition mul (x y : number) : number :=
  match x, y with
  | NaN, _ | _, NaN => NaN
  | Fin a, Fin b => round_q (a * b) unit_den
  | Fin a, PosInf | PosInf, Fin a =>
      if a =? 0 then NaN else sign_inf (a <? 0)
  | Fin a, NegInf | NegInf, Fin a =>
      if a =? 0 then NaN else sign_inf (negb (a <? 0))
  | PosInf, PosInf | NegInf, NegInf => PosInf
  | PosInf, NegInf | NegInf, PosInf => NegInf
  end.

(** The order of the non-NaN numbers. *)
Definition leb (x y : number) : bool :=
  match x, y with
  | NaN, _ | _, NaN => false
  | NegInf, _ => true
  | _, PosInf => true
  | Fin a, Fin b => a <=? b
  | _, _ => false
  end.

Definition le (x y : number) : Prop := leb x y = true.

(** [Math.max(x, y)] and [Math.min(x, y)]: a NaN argument gives NaN. *)
Definition max (x y : number) : number :=
  match x, y with
  | NaN, _ | _, NaN => NaN
  | _, _ => if leb x y then y else x
  end.

Definition min (x y : number) : number :=
  match x, y with
  | NaN, _ | _, NaN => NaN
  | _, _ => if leb x y then x else y
  end.

(** Ceiling of the rational [u / d], [0 < d]. *)
Definition cdiv (u d : Z) : Z := - ((- u) / d).

(** [Math.ceil(x)] *)
Definition ceil (x : number) : number :=
  match x with
  | Fin u => Fin (cdiv u unit_den * unit_den)
  | _ => x
  end.

(** ToIntegerOrInfinity, clamped to [0 .. len] the way [String.prototype.slice]
    resolves a relative index: NaN is 0, a negative index counts from the
    end. *)
Definition rel_index (x : number) (len : nat) : nat :=
  match x with
  | NaN => 0%nat
  | NegInf => 0%nat
  | PosInf => len
  | Fin u =>
      let i := Z.quot u unit_den in
      if i <? 0 then Z.to_nat (Z.max (Z.of_nat len + i) 0)
      else Z.to_nat (Z.min i (Z.of_nat len))
  end.

(** The binary64 value as the Standard Library's [spec_float], to compare
    the model with the machine's arithmetic. *)
Definition to_spec (x : number) : SpecFloat.spec_float :=
  match x with
  | NaN => SpecFloat.S754_nan
  | NegInf => SpecFloat.S754_infinity true
  | PosInf => SpecFloat.S754_infinity false
  | Fin u =>
      let e := Z.max 0 (Z.log2 (Z.abs u) - (prec - 1)) in
      match Z.abs u / 2 ^ e with
      | Zpos m => SpecFloat.S754_finite (u <? 0) m (e - ebias)
      | _ => SpecFloat.S754_zero false
      end
  end.

(** The literals [0.05] and [0.9] of the formatter, in units. *)
Definition units_0_05 : Z := Eval vm_compute in round_units (5 * unit_den) 100.
Definition units_0_9 : Z := Eval vm_compute in round_units (9 * unit_den) 10.

(** Equality of two [spec_float] values, the zeros taken as one. *)
Definition spec_eqb (x y : SpecFloat.spec_float) : bool :=
  match x, y with
  | SpecFloat.S754_zero _, SpecFloat.S754_zero _ => true
  | SpecFloat.S754_infinity a, SpecFloat.S754_infinity b => Bool.eqb a b
  | SpecFloat.S754_nan, SpecFloat.S754_nan => true
  | SpecFloat.S754_finite a m e, SpecFloat.S754_finite b m' e' =>
      Bool.eqb a b && Pos.eqb m m' && Z.eqb e e'
  | _, _ => false
  end.

(** The machine's binary64 number for a small integer. *)
Definition machine_of_Z (z : Z) : float :=
  if z <? 0 then PrimFloat.opp (PrimFloat.of_uint63 (Uint63.of_Z (- z)))
  else PrimFloat.of_uint63 (Uint63.of_Z z).

(** Whether the model and the machine agree on [n * (p / 100)], the
    computation of the formatter. *)
Definition agrees (np : Z * Z) : bool :=
  let (n, p) := np in
  spec_eqb (to_spec (mul (of_Z n) (div (of_Z p) (of_Z 100))))
           (Prim2SF (machine_of_Z n * (machine_of_Z p / machine_of_Z 100))%float).

End Num.

(** ** The client-side script *)
Module JS.
Import Num.

(** A JavaScript string is a sequence of UTF-16 code units. *)
Definition jsstring : Type := list N.

(** The code units of an ASCII literal of the source. *)
Definition str (s : string) : jsstring :=
  List.map N_of_ascii (list_ascii_of_string s).

(** The double-quote character, which the literals of the source contain. *)
Definition dq : jsstring := [34%N].

(** [s.replace(/c/g, r)] for a single character [c]: every occurrence of
    [c], left to right, becomes [r]. *)
Fixpoint replace_all (c : N) (r : jsstring) (s : jsstring) : jsstring :=
  match s with
  | [] => []
  | x :: s' => (if N.eqb x c then r else [x]) ++ replace_all c r s'
  end.

Definition amp_c : N := 38%N.
Definition lt_c : N := 60%N.
Definition gt_c : N := 62%N.
Definition quot_c : N := 34%N.
Definition apos_c : N := 39%N.

(** [escapeHtml]: five successive global replacements, ampersand first. *)
Definition escapeHtml (s : jsstring) : jsstring :=
  replace_all apos_c (str "&#039;")
    (replace_all quot_c (str "&quot;")
      (replace_all gt_c (str "&gt;")
        (replace_all lt_c (str "&lt;")
          (replace_all amp_c (str "&amp;") s)))).

(** The class [\s]: WhiteSpace and LineTerminator code points. *)
Definition is_space (c : N) : bool :=
  existsb (N.eqb c)
    [9; 10; 11; 12; 13; 32; 160; 5760; 8232; 8233; 8239; 8287; 12288; 65279]%N
  || ((8192 <=? c) && (c <=? 8202))%N.

(** The characters [.] does not match: LF, CR, LS and PS. *)
Definition is_line_terminator (c : N) : bool :=
  existsb (N.eqb c) [10; 13; 8232; 8233]%N.

(** [/^\s+$/.test(token)] *)
Definition ws_only (token : jsstring) : bool :=
  match token with
  | [] => false
  | _ => forallb is_space token
  end.

(** [text.split(/(\s+)/)]: the pieces between the maximal whitespace runs,
    with the runs themselves (the capture group) in between.  The result
    starts and ends with a piece, which is empty when the text starts or
    ends with whitespace.  [acc] holds the current piece or run, reversed;
    [in_ws] tells which of the two it is. *)
Fixpoint split_go (s : jsstring) (acc : jsstring) (in_ws : bool)
  : list jsstring :=
  match s with
  | [] => if in_ws then [rev acc; []] else [rev acc]
  | c :: s' =>
      if Bool.eqb (is_space c) in_ws then split_go s' (c :: acc) in_ws
      else rev acc :: split_go s' [c] (is_space c)
  end.

Definition split_ws (text : jsstring) : list jsstring :=
  split_go text [] false.

(** Surrogate code units, and the code point of a surrogate pair. *)
Definition is_high (c : N) : bool := ((55296 <=? c) && (c <=? 56319))%N.
Definition is_low (c : N) : bool := ((56320 <=? c) && (c <=? 57343))%N.
Definition pair_cp (hi lo : N) : N :=
  (65536 + (hi - 55296) * 1024 + (lo - 56320))%N.

Section Formatter.

(** The Unicode property test of the regular expression: whether a code
    point has general category L (letter) or N (number).  The table is the
    engine's; the formatter is verified for every table. *)
Variable letter_or_number : N -> bool.

(** A code point of the class [[\p{L}\p{N}']]. *)
Definition core_cp (cp : N) : bool :=
  letter_or_number cp || N.eqb cp apos_c.

(** Length, in code units, of the longest prefix matched by
    [[\p{L}\p{N}']+] under the [u] flag: the string is read by code points,
    a high surrogate followed by a low one being one code point. *)
Fixpoint core_len (s : jsstring) : nat :=
  match s with
  | [] => 0%nat
  | c :: s' =>
      if is_high c then
        match s' with
        | lo :: s'' =>
            if is_low lo then
              (if core_cp (pair_cp c lo) then S (S (core_len s'')) else 0%nat)
            else (if core_cp c then S (core_len s') else 0%nat)
        | [] => if core_cp c then 1%nat else 0%nat
        end
      else if core_cp c then S (core_len s') else 0%nat
  end.

(** The [token.match] call: group 1 is the greedy run of core characters
    at the start of the token, group 2 is the rest, which the pattern
    (any characters, then the end of the string) matches only if it has no
    line terminator. *)
Definition match_core (token : jsstring) : option (jsstring * jsstring) :=
  let n := core_len token in
  match n with
  | O => None
  | _ =>
      let rest := skipn n token in
      if forallb (fun c => negb (is_line_terminator c)) rest
      then Some (firstn n token, rest)
      else None
  end.

(** [s.slice(start, end)]; [end] is [None] when the argument is absent. *)
Definition slice (s : jsstring) (start : number) (end_ : option number)
  : jsstring :=
  let len := length s in
  let from := rel_index start len in
  let to := match end_ with Some e => rel_index e len | None => len end in
  firstn (to - from) (skipn from s).

(** [Math.max(1, Math.ceil(n * ratio))] *)
Definition bold_len (n : nat) (ratio : number) : number :=
  Num.max (of_Z 1) (ceil (mul (of_nat n) ratio)).

Definition open_word : jsstring :=
  str "<span class=" ++ dq ++ str "word" ++ dq ++ str ">"
  ++ str "<span class=" ++ dq ++ str "bionic-strong" ++ dq ++ str ">".
Definition close_span : jsstring := str "</span>".

(** The callback of [map] in [bionicWrapText]. *)
Definition wrap_token (ratio : number) (token : jsstring) : jsstring :=
  if ws_only token then token
  else match match_core token with
       | None => escapeHtml token
       | Some (core, rest) =>
           let n := length core in
           let k := bold_len n ratio in
           let first := escapeHtml (slice core (of_Z 0) (Some k)) in
           let last := escapeHtml (slice core k None) in
           open_word ++ first ++ close_span ++ last ++ escapeHtml rest
           ++ close_span
       end.

(** [Math.min(Math.max(ratioPercent/100, 0.05), 0.9)] *)
Definition effective_ratio (ratioPercent : number) : number :=
  Num.min (Num.max (div ratioPercent (of_Z 100)) (literal 5 100))
          (literal 9 10).

Definition bionicWrapText (text : jsstring) (ratioPercent : number)
  : jsstring :=
  concat (List.map (wrap_token (effective_ratio ratioPercent)) (split_ws text)).

End Formatter.

(** *** Numbers as strings *)

(** Decimal digits of an integer. *)
Definition dec (z : Z) : jsstring :=
  str (DecimalString.NilZero.string_of_int (Z.to_int z)).

Definition digit (d : Z) : N := Z.to_N (48 + d).

(** [String(x)], the conversion behind [x + '%'], where it is plain decimal
    digits: integers below [10^21], NaN and the infinities.  Fractions and
    exponent notation are outside the model ([None]). *)
Definition number_to_string (x : number) : option jsstring :=
  match x with
  | NaN => Some (str "NaN")
  | PosInf => Some (str "Infinity")
  | NegInf => Some (str "-Infinity")
  | Fin u =>
      if (u mod unit_den =? 0) && (Z.abs (u / unit_den) <? 10 ^ 21)
      then Some (dec (u / unit_den)) else None
  end.

(** [x.toFixed(2)]: the integer [n] with [n / 100] nearest to [|x|], the
    larger one on a tie, printed with two decimals.  From [10^21] on the
    result is in exponent notation, outside the model ([None]). *)
Definition toFixed2 (x : number) : option jsstring :=
  match x with
  | NaN => Some (str "NaN")
  | PosInf => Some (str "Infinity")
  | NegInf => Some (str "-Infinity")
  | Fin u =>
      let a := Z.abs u in
      if 10 ^ 21 * unit_den <=? a then None
      else
        let n := (200 * a + unit_den) / (2 * unit_den) in
        Some ((if u <? 0 then str "-" else [])
              ++ dec (n / 100) ++ str "."
              ++ [digit (n mod 100 / 10); digit (n mod 10)])
  end.

(** [x || d] on a string that may be absent: the empty string is falsy. *)
Definition or_default (x : option jsstring) (d : jsstring) : jsstring :=
  match x with
  | Some (c :: s) => c :: s
  | _ => d
  end.

(** *** The page

    The part of the document and of [window] the script reads and writes.
    A range input holds the decimal string of an integer; the controls are
    kept as that integer, [dec] giving the [value] string and [of_Z] its
    conversion to a number. *)
Record page : Type := mkPage {
  pdfRawText : option jsstring;      (* window._pdfRawText *)
  fontSize : Z;                      (* #fontSize value *)
  lineHeight : Z;                    (* #lineHeight value *)
  bionicIntensity : Z;               (* #bionicIntensity value *)
  softToggle : bool;                 (* #softToggle checked *)
  innerHTML : jsstring;              (* #textContainer innerHTML *)
  style_fontSize : jsstring;         (* #textContainer style *)
  style_lineHeight : jsstring;
  style_color : jsstring;
  style_opacity : jsstring;
  style_letterSpacing : jsstring;
  fontSizeLabel : jsstring;          (* innerText of the labels *)
  lineHeightLabel : jsstring;
  bionicLabel : jsstring;
  uploadedName : jsstring
}.

(** The page as the template delivers it, before any script runs. *)
Definition initial_page : page :=
  {| pdfRawText := None;
     fontSize := 16; lineHeight := 24; bionicIntensity := 35;
     softToggle := false;
     innerHTML := str "Upload a PDF to extract text here.";
     style_fontSize := []; style_lineHeight := []; style_color := [];
     style_opacity := []; style_letterSpacing := [];
     fontSizeLabel := str "16"; lineHeightLabel := str "1.5";
     bionicLabel := str "35%"; uploadedName := str "None" |}.

Definition applyStyles (p : page) : option page :=
  let fontSize_v := fontSize p in
  let lineHeightPx := lineHeight p in
  match toFixed2 (div (of_Z lineHeightPx) (of_Z fontSize_v)),
        toFixed2 (div (of_Z lineHeightPx) (of_Z 16)) with
  | Some lh, Some label =>
      let soft := softToggle p in
      Some {| pdfRawText := pdfRawText p;
              fontSize := fontSize p; lineHeight := lineHeight p;
              bionicIntensity := bionicIntensity p;
              softToggle := softToggle p;
              innerHTML := innerHTML p;
              style_fontSize := dec fontSize_v ++ str "px";
              style_lineHeight := lh;
              style_color :=
                if soft then str "var(--soft-color)" else str "var(--text)";
              style_opacity := if soft then str "0.95" else str "1";
              style_letterSpacing := if soft then str "0.2px" else str "0";
              fontSizeLabel := dec fontSize_v;
              lineHeightLabel := label;
              bionicLabel := bionicLabel p;
              uploadedName := uploadedName p |}
  | _, _ => None
  end.

Definition updateLineHeightLabel (p : page) : option page :=
  match toFixed2 (div (of_Z (lineHeight p)) (of_Z 16)) with
  | Some label =>
      Some {| pdfRawText := pdfRawText p;
              fontSize := fontSize p; lineHeight := lineHeight p;
              bionicIntensity := bionicIntensity p;
              softToggle := softToggle p;
              innerHTML := innerHTML p;
              style_fontSize := style_fontSize p;
              style_lineHeight := style_lineHeight p;
              style_color := style_color p;
              style_opacity := style_opacity p;
              style_letterSpacing := style_letterSpacing p;
              fontSizeLabel := fontSizeLabel p;
              lineHeightLabel := label;
              bionicLabel := bionicLabel p;
              uploadedName := uploadedName p |}
  | None => None
  end.

Section Render.

Variable letter_or_number : N -> bool.

(** The HTML [renderText] assigns to the container. *)
Definition render_html (raw : jsstring) (intensity : number) : jsstring :=
  bionicWrapText letter_or_number (escapeHtml raw) intensity.

Definition renderText (p : page) : option page :=
  let raw := or_default (pdfRawText p) [] in
  let intensity := of_Z (bionicIntensity p) in
  match number_to_string intensity with
  | Some shown =>
      let html := render_html raw intensity in
      applyStyles
        {| pdfRawText := pdfRawText p;
           fontSize := fontSize p; lineHeight := lineHeight p;
           bionicIntensity := bionicIntensity p;
           softToggle := softToggle p;
           innerHTML := html;
           style_fontSize := style_fontSize p;
           style_lineHeight := style_lineHeight p;
           style_color := style_color p;
           style_opacity := style_opacity p;
           style_letterSpacing := style_letterSpacing p;
           fontSizeLabel := fontSizeLabel p;
           lineHeightLabel := lineHeightLabel p;
           bionicLabel := shown ++ str "%";
           uploadedName := uploadedName p |}
  | None => None
  end.

(** The [DOMContentLoaded] listener.  [embedded] is the hidden element the
    server may have rendered: its text content and its [data-fname]
    attribute. *)
Definition on_load (embedded : option (jsstring * option jsstring)) (p : page)
  : option page :=
  match embedded with
  | None => Some p
  | Some (textContent, data_fname) =>
      let fname := or_default data_fname (str "Uploaded PDF") in
      renderText
        {| pdfRawText := Some (or_default (Some textContent) []);
           fontSize := fontSize p; lineHeight := lineHeight p;
           bionicIntensity := bionicIntensity p;
           softToggle := softToggle p;
           innerHTML := innerHTML p;
           style_fontSize := style_fontSize p;
           style_lineHeight := style_lineHeight p;
           style_color := style_color p;
           style_opacity := style_opacity p;
           style_letterSpacing := style_letterSpacing p;
           fontSizeLabel := fontSizeLabel p;
           lineHeightLabel := lineHeightLabel p;
           bionicLabel := bionicLabel p;
           uploadedName := fname |}
  end.

End Render.

(** *** Reading the rendered HTML back

    What the browser shows for the HTML the formatter produces: the tags
    are dropped and the five entities of [escapeHtml] are decoded. *)

(** Drop every tag, from a [<] to the next [>]. *)
Fixpoint strip_go (in_tag : bool) (s : jsstring) : jsstring :=
  match s with
  | [] => []
  | c :: s' =>
      if in_tag then strip_go (negb (N.eqb c gt_c)) s'
      else if N.eqb c lt_c then strip_go true s'
      else c :: strip_go false s'
  end.

Definition strip_markup (html : jsstring) : jsstring := strip_go false html.

(** Whether [s] starts with [p]. *)
Fixpoint has_prefix (p s : jsstring) : bool :=
  match p, s with
  | [], _ => true
  | x :: p', y :: s' => N.eqb x y && has_prefix p' s'
  | _ :: _, [] => false
  end.

(** The entity that starts after an ampersand, as the character it stands
    for and the number of code units it takes after the ampersand. *)
Definition entity_at (s : jsstring) : option (N * nat) :=
  if has_prefix (str "amp;") s then Some (amp_c, 4%nat)
  else if has_prefix (str "lt;") s then Some (lt_c, 3%nat)
  else if has_prefix (str "gt;") s then Some (gt_c, 3%nat)
  else if has_prefix (str "quot;") s then Some (quot_c, 5%nat)
  else if has_prefix (str "#039;") s then Some (apos_c, 5%nat)
  else None.

(** Decode the entities, left to right; [skip] code units of an entity
    already decoded are still to be passed over. *)
Fixpoint decode_go (skip : nat) (s : jsstring) : jsstring :=
  match s with
  | [] => []
  | c :: s' =>
      match skip with
      | S k => decode_go k s'
      | O =>
          if N.eqb c amp_c then
            match entity_at s' with
            | Some (ch, len) => ch :: decode_go len s'
            | None => c :: decode_go 0 s'
            end
          else c :: decode_go 0 s'
      end
  end.

Definition decode_entities (s : jsstring) : jsstring := decode_go 0 s.

(** The text a reader sees. *)
Definition visible_text (html : jsstring) : jsstring :=
  decode_entities (strip_markup html).

(** The restriction of the Unicode letter and number categories to the
    Basic Latin block, for the examples: digits and ASCII letters. *)
Definition basic_latin (cp : N) : bool :=
  ((48 <=? cp) && (cp <=? 57) || (65 <=? cp) && (cp <=? 90)
   || (97 <=? cp) && (cp <=? 122))%N.

(** *** Notions used in the statements *)

(** What [escapeHtml] makes of one character. *)
Definition esc_char (c : N) : jsstring :=
  if N.eqb c amp_c then str "&amp;"
  else if N.eqb c lt_c then str "&lt;"
  else if N.eqb c gt_c then str "&gt;"
  else if N.eqb c quot_c then str "&quot;"
  else if N.eqb c apos_c then str "&#039;"
  else [c].

(** The five characters [escapeHtml] replaces. *)
Definition special (c : N) : bool :=
  N.eqb c amp_c || N.eqb c lt_c || N.eqb c gt_c || N.eqb c quot_c
  || N.eqb c apos_c.

(** A string without angle brackets. *)
Definition markup_free (s : jsstring) : Prop :=
  Forall (fun c => c <> lt_c /\ c <> gt_c) s.

(** A string without whitespace. *)
Definition no_space (t : jsstring) : bool :=
  forallb (fun c => negb (is_space c)) t.

(** A token is a whitespace run or has no whitespace. *)
Definition token_ok (t : jsstring) : Prop :=
  ws_only t = true \/ no_space t = true.

(** Tokens alternate between whitespace runs and pieces without
    whitespace, starting with a run when [ws] holds. *)
Fixpoint alternates (ws : bool) (l : list jsstring) : Prop :=
  match l with
  | [] => True
  | t :: l' =>
      (if ws then ws_only t = true else no_space t = true)
      /\ alternates (negb ws) l'
  end.

(** [p / 100] as the script computes it. *)
Definition percent (p : Z) : number := div (of_Z p) (of_Z 100).

(** The number of hundredths [toFixed(2)] prints for a finite number of
    [u] units, and the string it prints for [n] hundredths. *)
Definition hundredths (u : Z) : Z :=
  (200 * Z.abs u + unit_den) / (2 * unit_den).

Definition fixed2 (n : Z) : jsstring :=
  dec (n / 100) ++ str "." ++ [digit (n mod 100 / 10); digit (n mod 10)].

(** The integers [lo], [lo + 1], ..., [lo + len - 1]. *)
Definition Zrange (lo : Z) (len : nat) : list Z :=
  List.map (fun i => lo + Z.of_nat i) (seq 0 len).

(** For the values [lh] and [fs] of the two sliders: the quotient is a
    finite non-negative number below [10^21] and the hundredths printed
    are nearest to the exact ratio. *)
Definition ratio_ok (lh fs : Z) : bool :=
  match round_q (lh * unit_den) fs with
  | Fin u =>
      (0 <=? u) && (u <? 10 ^ 21 * unit_den)
      && (2 * Z.abs (hundredths u * fs - 100 * lh) <=? fs)
  | _ => false
  end.

(** The bold length in the words of the description, in exact
    arithmetic, for a core of [n] code units and the ratio [num / den]:
    [max(1, ceil(n * num / den))]. *)
Definition exact_bold_len (n : nat) (num den : Z) : Z :=
  Z.max 1 (cdiv (Z.of_nat n * num) den).

(** A word of 25 letters. *)
Definition word25 : jsstring := str "abcdefghijklmnopqrstuvwxy".

End JS.

(** ** The server *)
Module Py.

Local Open Scope string_scope.

(** *** [allowed_file] *)

Definition UPLOAD_FOLDER : string := "uploads".
Definition ALLOWED_EXTENSIONS : gset string := {[ "pdf" ]}.

(** [c in s] for a one-character [c]. *)
Fixpoint contains (c : ascii) (s : string) : bool :=
  match s with
  | EmptyString => false
  | String x s' => Ascii.eqb x c || contains c s'
  end.

(** [s.rsplit(sep, 1)]: the string cut at its last [sep], or the string
    alone when it has none. *)
Fixpoint rsplit1 (sep : ascii) (s : string) : list string :=
  match s with
  | EmptyString => [EmptyString]
  | String c s' =>
      match rsplit1 sep s' with
      | [h; t] => [String c h; t]
      | _ => if Ascii.eqb c sep then [EmptyString; s'] else [String c s']
      end
  end.

(** [s.lower()] as the extension test needs it: the letters A to Z are
    folded and every other character is kept.  Python also folds the
    letters outside ASCII, but none of them lower-cases to [p], [d] or [f],
    so whether the result is [pdf] is decided by this folding alone. *)
Definition lower_char (c : ascii) : ascii :=
  let n := nat_of_ascii c in
  if ((65 <=? n) && (n <=? 90))%nat then ascii_of_nat (n + 32) else c.

Fixpoint lower (s : string) : string :=
  match s with
  | EmptyString => EmptyString
  | String c s' => String (lower_char c) (lower s')
  end.

(** A name with each of its letters A to Z replaced by the lower-case
    letter, and nothing else changed: two names with the same fold differ
    only in the case of ASCII letters. *)
Fixpoint ascii_fold (s : string) : string :=
  match s with
  | EmptyString => EmptyString
  | String c s' => String (lower_char c) (ascii_fold s')
  end.

(** [allowed_file(filename)].  [None] stands for the [IndexError] of the
    subscript [[1]]. *)
Definition allowed_file (filename : string) : option bool :=
  if contains "." filename then
    match nth_error (rsplit1 "." filename) 1 with
    | Some ext => Some (bool_decide (lower ext ∈ ALLOWED_EXTENSIONS))
    | None => None
    end
  else Some false.

(** *** Exceptions, documents and the server state *)

(** An instance of [Exception]; [exn_str] is [str(e)]. *)
Record exn : Type := { exn_str : string }.

Inductive outcome (A : Type) : Type :=
| Returns (a : A)
| Raises (e : exn).
Arguments Returns {A} a.
Arguments Raises {A} e.

(** An opened document: what [page.get_text("text")] does on each page, in
    document order. *)
Definition document : Type := list (outcome string).

(** An uploaded file of [request.files]. *)
Record FileStorage : Type := {
  filename : string;
  content : list Byte.byte
}.

(** The upload directory (path to bytes) and the messages flashed into the
    session. *)
Record server : Type := mkServer {
  storage : gmap string (list Byte.byte);
  flashes : list string
}.

(** The page rendered from [TEMPLATE]: the hidden [embeddedRaw] element,
    present when [raw_text] is truthy, with its text and its [data-fname]
    attribute.  These are the only places where the template uses its
    variables; it does not read the flashed messages. *)
Record rendered : Type := { embeddedRaw : option (string * string) }.

Inductive response : Type :=
| Redirect (location : string)
| Html (body : rendered).

Definition status (r : response) : Z :=
  match r with
  | Redirect _ => 302
  | Html _ => 200
  end.

Definition render_template_string (raw_text : option string)
  (fname : string) : rendered :=
  match raw_text with
  | Some (String c s) => {| embeddedRaw := Some (String c s, fname) |}
  | _ => {| embeddedRaw := None |}
  end.

Definition flash (msg : string) (st : server) : server :=
  {| storage := storage st; flashes := flashes st ++ [msg] |}.

(** [file.save(path)] *)
Definition save (path : string) (bytes : list Byte.byte) (st : server)
  : server :=
  {| storage := <[ path := bytes ]> (storage st); flashes := flashes st |}.

(** [os.path.join(a, b)] on POSIX paths. *)
Definition path_join (a b : string) : string :=
  match b with
  | String "/" _ => b
  | _ =>
      match a with
      | EmptyString => b
      | _ => if String.eqb (substring (String.length a - 1) 1 a) "/"
             then a ++ b else a ++ "/" ++ b
      end
  end.

(** [sep.join(l)] *)
Fixpoint join (sep : string) (l : list string) : string :=
  match l with
  | [] => ""
  | [x] => x
  | x :: l' => x ++ sep ++ join sep l'
  end.

Definition newline : string := String (ascii_of_nat 10) EmptyString.

(** The loop over the pages: [all_text] grows by the non-empty texts; the
    first page that raises ends the loop. *)
Fixpoint collect (pages : document) (all_text : list string)
  : outcome (list string) :=
  match pages with
  | [] => Returns all_text
  | Raises e :: _ => Raises e
  | Returns txt :: rest =>
      collect rest
        (match txt with
         | EmptyString => all_text
         | _ => all_text ++ [txt]
         end)
  end.

(** [if txt] on a string. *)
Definition nonempty (s : string) : bool :=
  match s with
  | EmptyString => false
  | _ => true
  end.

Section Handlers.

(** [werkzeug.utils.secure_filename] and [fitz.open], the two library
    functions the handler calls; [fitz_open] reads the stored files. *)
Variable secure_filename : string -> string.
Variable fitz_open : string -> gmap string (list Byte.byte) -> outcome document.

(** The path an accepted file is stored at. *)
Definition upload_path (file : FileStorage) : string :=
  path_join UPLOAD_FOLDER (secure_filename (filename file)).

(** The body of the [try] block. *)
Definition extract (path : string) (files : gmap string (list Byte.byte))
  : outcome string :=
  match fitz_open path files with
  | Raises e => Raises e
  | Returns doc =>
      match collect doc [] with
      | Raises e => Raises e
      | Returns all_text => Returns (join (newline ++ newline) all_text)
      end
  end.

(** The [try]/[except Exception] statement. *)
Definition extract_or_placeholder (path : string)
  (files : gmap string (list Byte.byte)) : string :=
  match extract path files with
  | Returns raw => raw
  | Raises e => "[Error extracting text: " ++ exn_str e ++ "]"
  end.

(** [index()], the handler of GET [/]. *)
Definition index (st : server) : outcome response * server :=
  (Returns (Html (render_template_string None "")), st).

Definition IndexError : exn := {| exn_str := "list index out of range" |}.

(** [upload_file()], the handler of POST [/upload]; [files] is
    [request.files]. *)
Definition upload_file (files : gmap string FileStorage) (st : server)
  : outcome response * server :=
  match files !! "file" with
  | None => (Returns (Redirect "/"), flash "No file part" st)
  | Some file =>
      if String.eqb (filename file) "" then
        (Returns (Redirect "/"), flash "No selected file" st)
      else
        match (if negb (String.eqb (filename file) "")
               then allowed_file (filename file) else Some false) with
        | None => (Raises IndexError, st)
        | Some true =>
            let fname := secure_filename (filename file) in
            let path := upload_path file in
            let st' := save path (content file) st in
            let raw := extract_or_placeholder path (storage st') in
            (Returns (Html (render_template_string (Some raw) fname)), st')
        | Some false =>
            (Returns (Redirect "/"), flash "Invalid file type" st)
        end
  end.

End Handlers.

(** Uploads used in the examples. *)
Definition broken_pdf : FileStorage :=
  {| filename := "a.pdf"; content := [] |}.

Definition text_file : FileStorage :=
  {| filename := "notes.txt"; content := [] |}.

Definition report_pdf : FileStorage :=
  {| filename := "report.PDF"; content := [Byte.x25; Byte.x50] |}.

Definition report_v2 : FileStorage :=
  {| filename := "report.PDF"; content := [Byte.x26] |}.

Definition scan_pdf : FileStorage :=
  {| filename := "scan.pdf"; content := [] |}.

End Py.

(** ** Facts about the number model *)
Module NumFacts.
Import Num.

(** *** Rounding is monotone *)

Lemma rne_cases n d :
  0 < d ->
  exists q r, n = d * q + r /\ 0 <= r < d /\
    ((2 * r < d /\ rne n d = q) \/
     (2 * r > d /\ rne n d = q + 1) \/
     (2 * r = d /\ Z.even q = true /\ rne n d = q) \/
     (2 * r = d /\ Z.even q = false /\ rne n d = q + 1)).
Proof.
  intros Hd. exists (n / d), (n mod d).
  split; [apply Z.div_mod; lia|].
  split; [apply Z.mod_pos_bound; lia|].
  unfold rne. destruct (Z.compare_spec (2 * (n mod d)) d) as [E|E|E].
  - destruct (Z.even (n / d)) eqn:Ev; [right; right; left | right; right; right]; auto.
  - left; auto.
  - right; left; split; [lia | reflexivity].
Qed.

Lemma even_succ_flip q : Z.even q = true -> Z.even (q + 1) = false.
Proof.
  intros H. rewrite Z.even_add, H. reflexivity.
Qed.

Lemma rne_mono n1 d1 n2 d2 :
  0 < d1 -> 0 < d2 -> n1 * d2 <= n2 * d1 -> rne n1 d1 <= rne n2 d2.
Proof.
  intros H1 H2 Hle.
  destruct (rne_cases n1 d1 H1) as (q1 & r1 & E1 & B1 & C1).
  destruct (rne_cases n2 d2 H2) as (q2 & r2 & E2 & B2 & C2).
  subst n1 n2.
  assert (Hdd : 0 < d1 * d2) by nia.
  assert (Hq : q1 <= q2).
  { destruct (Z_le_gt_dec q1 q2) as [|Hgt]; [assumption|]. exfalso.
    assert (0 <= d1 * d2 * (q1 - q2 - 1)) by (apply Z.mul_nonneg_nonneg; lia).
    assert (r2 * d1 < d2 * d1) by nia.
    assert (0 <= r1 * d2) by nia.
    nia. }
  destruct (Z.eq_dec q1 q2) as [->|Hne].
  - assert (Hr : r1 * d2 <= r2 * d1) by nia.
    destruct C1 as [[? ->]|[[? ->]|[(? & ? & ->)|(? & ? & ->)]]];
    destruct C2 as [[? ->]|[[? ->]|[(? & ? & ->)|(? & ? & ->)]]];
      try lia; try congruence; exfalso; nia.
  - assert (q1 + 1 <= q2) by lia.
    destruct C1 as [[? ->]|[[? ->]|[(? & ? & ->)|(? & ? & ->)]]];
    destruct C2 as [[? ->]|[[? ->]|[(? & ? & ->)|(? & ? & ->)]]]; lia.
Qed.

Lemma rne_exact k d : 0 < d -> rne (k * d) d = k.
Proof.
  intros Hd. unfold rne.
  rewrite Z.div_mul, Z.mod_mul by lia.
  destruct (Z.compare_spec (2 * 0) d); lia.
Qed.

Lemma rne_lower k n d : 0 < d -> k * d <= n -> k <= rne n d.
Proof.
  intros Hd H. rewrite <- (rne_exact k d Hd). apply rne_mono; nia.
Qed.

Lemma rne_upper k n d : 0 < d -> n <= k * d -> rne n d <= k.
Proof.
  intros Hd H. rewrite <- (rne_exact k d Hd). apply rne_mono; nia.
Qed.

Lemma ulp_exp_nonneg n d : 0 <= ulp_exp n d.
Proof. unfold ulp_exp. lia. Qed.

(** A value in the binade of spacing [2^e] lies between [2^(e+52)] (unless
    [e = 0]) and [2^(e+53)]. *)
Lemma ulp_exp_upper n d :
  0 <= n -> 0 < d -> n < d * 2 ^ (ulp_exp n d + prec).
Proof.
  intros Hn Hd. set (e := ulp_exp n d).
  assert (Hq : n / d < 2 ^ (e + prec)).
  { destruct (Z.eq_dec (n / d) 0) as [E|E].
    - rewrite E. apply Z.pow_pos_nonneg; [lia|]. unfold e, ulp_exp, prec. lia.
    - assert (0 < n / d) by (pose proof (Z.div_pos n d); lia).
      pose proof (Z.log2_spec (n / d) H) as [_ Hu].
      eapply Z.lt_le_trans; [exact Hu|].
      apply Z.pow_le_mono_r; [lia|]. unfold e, ulp_exp, prec. lia. }
  pose proof (Z.mul_succ_div_gt n d Hd). nia.
Qed.

Lemma ulp_exp_lower n d :
  0 <= n -> 0 < d -> 0 < ulp_exp n d ->
  d * 2 ^ (ulp_exp n d + (prec - 1)) <= n.
Proof.
  intros Hn Hd He. unfold ulp_exp in *.
  assert (Hl : Z.log2 (n / d) = Z.max 0 (Z.log2 (n / d) - (prec - 1)) + (prec - 1)) by lia.
  rewrite <- Hl.
  assert (0 < n / d).
  { destruct (Z.eq_dec (n / d) 0) as [E|E].
    - rewrite E in He. simpl in He. unfold prec in He. lia.
    - pose proof (Z.div_pos n d); lia. }
  pose proof (Z.log2_spec (n / d) H) as [Hlo _].
  pose proof (Z.mul_div_le n d Hd). nia.
Qed.

Lemma ulp_exp_mono n1 d1 n2 d2 :
  0 <= n1 -> 0 < d1 -> 0 < d2 -> n1 * d2 <= n2 * d1 ->
  ulp_exp n1 d1 <= ulp_exp n2 d2.
Proof.
  intros Hn H1 H2 Hle. unfold ulp_exp.
  assert (n1 / d1 <= n2 / d2).
  { apply Z.div_le_lower_bound; [lia|].
    pose proof (Z.mul_div_le n1 d1 H1).
    assert (n2 < d2 * (n2 / d2 + 1)) by (pose proof (Z.mul_succ_div_gt n2 d2 H2); lia).
    destruct (Z_le_gt_dec (d2 * (n1 / d1)) n2); [lia|]. exfalso.
    assert (0 <= n1 / d1) by (apply Z.div_pos; lia).
    nia. }
  pose proof (Z.log2_le_mono _ _ H). lia.
Qed.

Lemma round_units_nonneg n d : 0 <= n -> 0 < d -> 0 <= round_units n d.
Proof.
  intros Hn Hd. unfold round_units.
  pose proof (ulp_exp_nonneg n d) as He.
  assert (Hp : 0 < 2 ^ ulp_exp n d) by (apply Z.pow_pos_nonneg; lia).
  assert (0 <= rne n (d * 2 ^ ulp_exp n d)) by (apply rne_lower; nia).
  nia.
Qed.

Lemma round_units_mono n1 d1 n2 d2 :
  0 <= n1 -> 0 < d1 -> 0 < d2 -> n1 * d2 <= n2 * d1 ->
  round_units n1 d1 <= round_units n2 d2.
Proof.
  intros Hn H1 H2 Hle.
  assert (Hn2 : 0 <= n2) by nia.
  pose proof (ulp_exp_mono n1 d1 n2 d2 Hn H1 H2 Hle) as He.
  pose proof (ulp_exp_nonneg n1 d1) as He1.
  unfold round_units.
  set (e1 := ulp_exp n1 d1) in *. set (e2 := ulp_exp n2 d2) in *.
  assert (Hp1 : 0 < 2 ^ e1) by (apply Z.pow_pos_nonneg; lia).
  assert (Hp2 : 0 < 2 ^ e2) by (apply Z.pow_pos_nonneg; lia).
  destruct (Z.eq_dec e1 e2) as [E|E].
  - rewrite <- E. apply Z.mul_le_mono_nonneg_r; [lia|].
    apply rne_mono; nia.
  - assert (Hup : rne n1 (d1 * 2 ^ e1) <= 2 ^ prec).
    { apply rne_upper; [nia|].
      pose proof (ulp_exp_upper n1 d1 Hn H1) as Hu. fold e1 in Hu.
      rewrite Z.pow_add_r in Hu by (unfold prec; lia). nia. }
    assert (Hlo : 2 ^ (prec - 1) <= rne n2 (d2 * 2 ^ e2)).
    { apply rne_lower; [nia|].
      assert (He2 : 0 < ulp_exp n2 d2) by (fold e2; lia).
      pose proof (ulp_exp_lower n2 d2 Hn2 H2 He2) as Hl. fold e2 in Hl.
      rewrite Z.pow_add_r in Hl by (unfold prec; lia). nia. }
    assert (Hpw : 2 ^ prec * 2 ^ e1 <= 2 ^ (prec - 1) * 2 ^ e2).
    { rewrite <- !Z.pow_add_r by (unfold prec; lia).
      apply Z.pow_le_mono_r; unfold prec; lia. }
    assert (0 < 2 ^ (prec - 1)) by (apply Z.pow_pos_nonneg; unfold prec; lia).
    nia.
Qed.

Lemma round_units_scale n d c :
  0 <= n -> 0 < d -> 0 < c -> round_units (n * c) (d * c) = round_units n d.
Proof.
  intros Hn Hd Hc. apply Z.le_antisymm; apply round_units_mono; nia.
Qed.

(** A number with at most 53 significant bits is its own rounding. *)
Lemma round_units_exact m k :
  0 <= m < 2 ^ prec -> 0 <= k -> round_units (m * 2 ^ k) 1 = m * 2 ^ k.
Proof.
  intros [Hm Hlt] Hk. unfold round_units, ulp_exp. rewrite Z.div_1_r.
  destruct (Z.eq_dec m 0) as [->|Hne].
  - rewrite Z.mul_0_l. reflexivity.
  - rewrite Z.log2_mul_pow2 by lia.
    assert (Hl : Z.log2 m < prec) by (apply Z.log2_lt_pow2; lia).
    set (e := Z.max 0 (k + Z.log2 m - (prec - 1))).
    assert (He : 0 <= e <= k) by (unfold e; lia).
    replace (m * 2 ^ k) with (m * 2 ^ (k - e) * (1 * 2 ^ e)).
    + rewrite rne_exact; [ring|].
      assert (0 < 2 ^ e) by (apply Z.pow_pos_nonneg; lia). lia.
    + replace k with ((k - e) + e) at 2 by lia.
      rewrite Z.pow_add_r by lia. ring.
Qed.

(** *** The order on numbers *)

Lemma le_Fin a b : le (Fin a) (Fin b) <-> a <= b.
Proof. unfold le; simpl. apply Z.leb_le. Qed.

Lemma le_refl_Fin a : le (Fin a) (Fin a).
Proof. apply le_Fin. lia. Qed.

Lemma le_trans x y z : le x y -> le y z -> le x z.
Proof.
  unfold le. destruct x, y, z; simpl; try congruence.
  rewrite !Z.leb_le. lia.
Qed.

Lemma le_antisym x y : le x y -> le y x -> x = y.
Proof.
  unfold le. destruct x, y; simpl; try congruence.
  rewrite !Z.leb_le. intros. f_equal. lia.
Qed.

Lemma le_total x y : x <> NaN -> y <> NaN -> le x y \/ le y x.
Proof.
  unfold le. destruct x, y; simpl; try congruence; auto.
  intros _ _. rewrite !Z.leb_le. lia.
Qed.

Lemma le_not_NaN x y : le x y -> x <> NaN /\ y <> NaN.
Proof. unfold le. destruct x, y; simpl; split; congruence. Qed.

Lemma neg_le x y : le x y -> le (neg y) (neg x).
Proof.
  unfold le. destruct x, y; simpl; try congruence.
  rewrite !Z.leb_le. lia.
Qed.

Lemma round_pos_mono n1 d1 n2 d2 :
  0 <= n1 -> 0 < d1 -> 0 < d2 -> n1 * d2 <= n2 * d1 ->
  le (round_pos n1 d1) (round_pos n2 d2).
Proof.
  intros Hn H1 H2 Hle.
  pose proof (round_units_mono n1 d1 n2 d2 Hn H1 H2 Hle) as Hm.
  unfold round_pos, le.
  destruct (Z.ltb_spec (round_units n1 d1) overflow_at);
    destruct (Z.ltb_spec (round_units n2 d2) overflow_at); simpl; try reflexivity.
  - apply Z.leb_le. exact Hm.
  - lia.
Qed.

Lemma round_pos_ge_0 n d : 0 <= n -> 0 < d -> le (Fin 0) (round_pos n d).
Proof.
  intros Hn Hd. pose proof (round_units_nonneg n d Hn Hd).
  unfold round_pos, le. destruct (_ <? _); simpl; [apply Z.leb_le; lia | reflexivity].
Qed.

Lemma round_q_mono n1 d1 n2 d2 :
  0 < d1 -> 0 < d2 -> n1 * d2 <= n2 * d1 ->
  le (round_q n1 d1) (round_q n2 d2).
Proof.
  intros H1 H2 Hle. unfold round_q.
  destruct (Z.ltb_spec n1 0); destruct (Z.ltb_spec n2 0).
  - apply neg_le, round_pos_mono; nia.
  - apply le_trans with (Fin 0).
    + change (Fin 0) with (neg (Fin 0)). apply neg_le, round_pos_ge_0; lia.
    + apply round_pos_ge_0; lia.
  - exfalso. nia.
  - apply round_pos_mono; nia.
Qed.

Lemma round_q_scale n d c :
  0 < d -> 0 < c -> round_q (n * c) (d * c) = round_q n d.
Proof.
  intros Hd Hc. apply le_antisym; apply round_q_mono; nia.
Qed.

Lemma of_Z_exact z :
  - 2 ^ prec < z < 2 ^ prec -> of_Z z = Fin (z * unit_den).
Proof.
  intros Hz. unfold of_Z, round_q, round_pos, unit_den, ebias.
  assert (Hov : forall m, 0 <= m < 2 ^ prec -> m * 2 ^ 1074 < overflow_at).
  { intros m [Hm Hlt]. unfold overflow_at.
    change (2 ^ 2098) with (2 ^ 1024 * 2 ^ 1074).
    assert (0 < 2 ^ 1074) by (apply Z.pow_pos_nonneg; lia).
    assert (2 ^ prec < 2 ^ 1024) by (apply Z.pow_lt_mono_r; unfold prec; lia).
    nia. }
  assert (0 < 2 ^ 1074) by (apply Z.pow_pos_nonneg; lia).
  destruct (Z.ltb_spec (z * 2 ^ 1074) 0).
  - replace (- (z * 2 ^ 1074)) with ((- z) * 2 ^ 1074) by ring.
    rewrite round_units_exact by lia.
    destruct (Z.ltb_spec (- z * 2 ^ 1074) overflow_at) as [_|Hge].
    + simpl. f_equal. ring.
    + specialize (Hov (- z)). lia.
  - rewrite round_units_exact by nia.
    destruct (Z.ltb_spec (z * 2 ^ 1074) overflow_at) as [_|Hge].
    + reflexivity.
    + specialize (Hov z). nia.
Qed.

(** *** Division and multiplication *)

Lemma unit_den_pos : 0 < unit_den.
Proof. apply Z.pow_pos_nonneg; unfold ebias; lia. Qed.

(** The quotient of two integers is the rounding of their exact ratio. *)
Lemma div_of_Z a b :
  - 2 ^ prec < a < 2 ^ prec -> 0 < b < 2 ^ prec ->
  div (of_Z a) (of_Z b) = round_q (a * unit_den) b.
Proof.
  intros Ha Hb. rewrite !of_Z_exact by lia. unfold div.
  pose proof unit_den_pos as HU.
  destruct (Z.eqb_spec (b * unit_den) 0); [nia|].
  destruct (Z.ltb_spec 0 (b * unit_den)); [|nia].
  apply round_q_scale; lia.
Qed.

(** Division by a positive number is monotone. *)
Lemma div_mono_l x y b :
  0 < b -> le x y -> le (div x (Fin b)) (div y (Fin b)).
Proof.
  intros Hb. pose proof unit_den_pos as HU.
  assert (Hs : (b <? 0) = false) by (apply Z.ltb_ge; lia).
  assert (Hz : (b =? 0) = false) by (apply Z.eqb_neq; lia).
  assert (Hp : (0 <? b) = true) by (apply Z.ltb_lt; lia).
  assert (Hany : forall n, le NegInf (round_q n b) /\ le (round_q n b) PosInf).
  { intros n. unfold round_q, round_pos.
    destruct (n <? 0); destruct (_ <? overflow_at); split; reflexivity. }
  unfold le at 1. destruct x, y; simpl; try congruence; intros H;
    unfold div; rewrite ?Hs, ?Hz, ?Hp; simpl; try reflexivity;
    try apply Hany.
  apply Z.leb_le in H. apply round_q_mono; try lia.
  apply Z.mul_le_mono_nonneg_r; [lia|].
  apply Z.mul_le_mono_nonneg_r; lia.
Qed.

(** The product of an integer below [2^53] and a ratio between 0 and 1 is a
    finite number between 0 and the integer. *)
Lemma mul_ratio_bounds (n : nat) r :
  Z.of_nat n < 2 ^ prec -> 0 <= r <= unit_den ->
  exists p, mul (of_nat n) (Fin r) = Fin p /\ 0 <= p <= Z.of_nat n * unit_den.
Proof.
  intros Hn Hr. pose proof unit_den_pos as HU.
  unfold of_nat. rewrite of_Z_exact by lia. unfold mul.
  assert (Hlo : le (Fin 0) (round_q (Z.of_nat n * unit_den * r) unit_den)).
  { unfold round_q. destruct (Z.ltb_spec (Z.of_nat n * unit_den * r) 0); [nia|].
    apply round_pos_ge_0; lia. }
  assert (Hhi : le (round_q (Z.of_nat n * unit_den * r) unit_den)
                   (Fin (Z.of_nat n * unit_den))).
  { rewrite <- (of_Z_exact (Z.of_nat n)) by lia. unfold of_Z.
    apply round_q_mono; try lia. nia. }
  destruct (round_q (Z.of_nat n * unit_den * r) unit_den) as [| |p|];
    try discriminate.
  exists p. apply le_Fin in Hlo, Hhi. split; [reflexivity|lia].
Qed.

Lemma cdiv_bounds u d k : 0 < d -> 0 <= u <= k * d -> 0 <= cdiv u d <= k.
Proof.
  intros Hd [Hu Hk]. unfold cdiv.
  assert (- k <= - u / d) by (apply Z.div_le_lower_bound; lia).
  assert (- u / d <= 0) by (apply Z.div_le_upper_bound; lia).
  lia.
Qed.

Lemma cdiv_spec u d : 0 < d -> u <= cdiv u d * d < u + d.
Proof.
  intros Hd. unfold cdiv.
  pose proof (Z.mul_div_le (- u) d Hd).
  pose proof (Z.mul_succ_div_gt (- u) d Hd). lia.
Qed.

Lemma max_Fin a b : Num.max (Fin a) (Fin b) = Fin (Z.max a b).
Proof.
  unfold Num.max, leb. destruct (Z.leb_spec a b); f_equal; lia.
Qed.

Lemma min_Fin a b : Num.min (Fin a) (Fin b) = Fin (Z.min a b).
Proof.
  unfold Num.min, leb. destruct (Z.leb_spec a b); f_equal; lia.
Qed.

Lemma rel_index_int (k : Z) (len : nat) :
  0 <= k -> rel_index (Fin (k * unit_den)) len = Z.to_nat (Z.min k (Z.of_nat len)).
Proof.
  intros Hk. pose proof unit_den_pos. unfold rel_index.
  rewrite Z.quot_mul by lia.
  destruct (Z.ltb_spec k 0); [lia|reflexivity].
Qed.

(** *** The two literals of the formatter *)

Lemma literal_0_05 : literal 5 100 = Fin units_0_05.
Proof. vm_compute. reflexivity. Qed.

Lemma literal_0_9 : literal 9 10 = Fin units_0_9.
Proof. vm_compute. reflexivity. Qed.

Lemma units_0_05_pos : 0 < units_0_05.
Proof. reflexivity. Qed.

Lemma units_0_9_lt_1 : units_0_9 < unit_den.
Proof. reflexivity. Qed.

Lemma units_0_05_lt_0_9 : units_0_05 < units_0_9.
Proof. reflexivity. Qed.

(** *** The rounding error *)

Lemma rne_err n d : 0 < d -> 2 * Z.abs (rne n d * d - n) <= d.
Proof.
  intros Hd. destruct (rne_cases n d Hd) as (q & r & -> & Hr & C).
  destruct C as [[? ->]|[[? ->]|[(? & ? & ->)|(? & ? & ->)]]]; lia.
Qed.

(** Above the subnormal range the error of a rounding is at most the
    value times [2^-53]. *)
Lemma round_units_err n d :
  0 <= n -> 0 < d -> 2 ^ prec * d <= n ->
  2 ^ prec * Z.abs (round_units n d * d - n) <= n.
Proof.
  intros Hn Hd Hbig.
  assert (He : 0 < ulp_exp n d).
  { unfold ulp_exp.
    assert (2 ^ prec <= n / d) by (apply Z.div_le_lower_bound; lia).
    assert (0 < n / d).
    { assert (0 < 2 ^ prec) by (apply Z.pow_pos_nonneg; unfold prec; lia). lia. }
    assert (prec <= Z.log2 (n / d)) by (apply Z.log2_le_pow2; lia).
    unfold prec in *. lia. }
  pose proof (ulp_exp_lower n d Hn Hd He) as Hl.
  unfold round_units. set (e := ulp_exp n d) in *.
  assert (Hp : 0 < 2 ^ e) by (apply Z.pow_pos_nonneg; lia).
  assert (HD : 0 < d * 2 ^ e) by nia.
  pose proof (rne_err n (d * 2 ^ e) HD) as Herr.
  replace (rne n (d * 2 ^ e) * 2 ^ e * d) with (rne n (d * 2 ^ e) * (d * 2 ^ e))
    by ring.
  rewrite Z.pow_add_r in Hl by (unfold prec; lia).
  change (2 ^ prec) with (2 ^ (prec - 1) * 2).
  assert (0 < 2 ^ (prec - 1)) by (apply Z.pow_pos_nonneg; unfold prec; lia).
  nia.
Qed.

Lemma round_q_Fin n d u :
  0 <= n -> round_q n d = Fin u -> u = round_units n d.
Proof.
  intros Hn. unfold round_q, round_pos.
  destruct (Z.ltb_spec n 0); [lia|].
  destruct (_ <? overflow_at); [|discriminate].
  intros Hu. injection Hu as <-. reflexivity.
Qed.

End NumFacts.

(** ** Facts about the client-side script *)
Module JSFacts.
Import Num NumFacts JS.

(** *** [escapeHtml], character by character *)

Lemma replace_all_app c r a b :
  replace_all c r (a ++ b) = replace_all c r a ++ replace_all c r b.
Proof.
  induction a as [|x a IH]; simpl; [reflexivity|].
  rewrite IH, app_assoc. reflexivity.
Qed.

Lemma escapeHtml_app a b : escapeHtml (a ++ b) = escapeHtml a ++ escapeHtml b.
Proof. unfold escapeHtml. rewrite !replace_all_app. reflexivity. Qed.

Lemma escapeHtml_nil : escapeHtml [] = [].
Proof. reflexivity. Qed.

Lemma escapeHtml_single c : escapeHtml [c] = esc_char c.
Proof.
  unfold esc_char.
  destruct (N.eqb_spec c amp_c) as [->|H1]; [reflexivity|].
  destruct (N.eqb_spec c lt_c) as [->|H2]; [reflexivity|].
  destruct (N.eqb_spec c gt_c) as [->|H3]; [reflexivity|].
  destruct (N.eqb_spec c quot_c) as [->|H4]; [reflexivity|].
  destruct (N.eqb_spec c apos_c) as [->|H5]; [reflexivity|].
  apply N.eqb_neq in H1, H2, H3, H4, H5.
  unfold escapeHtml. simpl.
  rewrite H1. simpl. rewrite H2. simpl. rewrite H3. simpl.
  rewrite H4. simpl. rewrite H5. reflexivity.
Qed.

Lemma escapeHtml_cons c s : escapeHtml (c :: s) = esc_char c ++ escapeHtml s.
Proof.
  change (c :: s) with ([c] ++ s).
  rewrite escapeHtml_app, escapeHtml_single. reflexivity.
Qed.

Lemma escapeHtml_flat s : escapeHtml s = flat_map esc_char s.
Proof.
  induction s as [|c s IH]; [reflexivity|].
  rewrite escapeHtml_cons, IH. reflexivity.
Qed.

Lemma esc_char_plain c : special c = false -> esc_char c = [c].
Proof.
  unfold special, esc_char. intros H.
  repeat (apply orb_false_elim in H; destruct H as [H ?]).
  repeat match goal with E : N.eqb _ _ = false |- _ => rewrite E; clear E end.
  reflexivity.
Qed.

Lemma escapeHtml_plain s :
  forallb (fun c => negb (special c)) s = true -> escapeHtml s = s.
Proof.
  induction s as [|c s IH]; simpl; [reflexivity|].
  intros H. apply andb_true_iff in H as [Hc Hs].
  rewrite escapeHtml_cons, IH by assumption.
  rewrite esc_char_plain; [reflexivity|].
  destruct (special c); [discriminate|reflexivity].
Qed.

Lemma is_space_not_special c : is_space c = true -> special c = false.
Proof.
  intros H. unfold special.
  destruct (N.eqb_spec c amp_c) as [->|_]; [discriminate|].
  destruct (N.eqb_spec c lt_c) as [->|_]; [discriminate|].
  destruct (N.eqb_spec c gt_c) as [->|_]; [discriminate|].
  destruct (N.eqb_spec c quot_c) as [->|_]; [discriminate|].
  destruct (N.eqb_spec c apos_c) as [->|_]; [discriminate|].
  reflexivity.
Qed.

Lemma escapeHtml_spaces s : forallb is_space s = true -> escapeHtml s = s.
Proof.
  intros H. apply escapeHtml_plain.
  rewrite forallb_forall in *. intros c Hc.
  rewrite (is_space_not_special c (H c Hc)). reflexivity.
Qed.

Lemma esc_char_markup_free c : markup_free (esc_char c).
Proof.
  unfold esc_char, markup_free.
  destruct (N.eqb_spec c amp_c); [repeat constructor; discriminate|].
  destruct (N.eqb_spec c lt_c); [repeat constructor; discriminate|].
  destruct (N.eqb_spec c gt_c); [repeat constructor; discriminate|].
  destruct (N.eqb_spec c quot_c); [repeat constructor; discriminate|].
  destruct (N.eqb_spec c apos_c); [repeat constructor; discriminate|].
  repeat constructor; assumption.
Qed.

Lemma escapeHtml_markup_free s : markup_free (escapeHtml s).
Proof.
  induction s as [|c s IH]; [constructor|].
  rewrite escapeHtml_cons. apply Forall_app. split; [apply esc_char_markup_free|exact IH].
Qed.

(** *** Reading the HTML back *)

Lemma strip_go_text a b :
  markup_free a -> strip_go false (a ++ b) = a ++ strip_go false b.
Proof.
  induction 1 as [|c a [Hl Hg] _ IH]; simpl; [reflexivity|].
  apply N.eqb_neq in Hl. rewrite Hl, IH. reflexivity.
Qed.

Lemma strip_go_open_word b :
  strip_go false (open_word ++ b) = strip_go false b.
Proof. reflexivity. Qed.

Lemma strip_go_close_span b :
  strip_go false (close_span ++ b) = strip_go false b.
Proof. reflexivity. Qed.

Lemma decode_go_esc_char c s :
  decode_go 0 (esc_char c ++ s) = c :: decode_go 0 s.
Proof.
  unfold esc_char.
  destruct (N.eqb_spec c amp_c) as [->|H1]; [reflexivity|].
  destruct (N.eqb_spec c lt_c) as [->|H2]; [reflexivity|].
  destruct (N.eqb_spec c gt_c) as [->|H3]; [reflexivity|].
  destruct (N.eqb_spec c quot_c) as [->|H4]; [reflexivity|].
  destruct (N.eqb_spec c apos_c) as [->|H5]; [reflexivity|].
  simpl. apply N.eqb_neq in H1. rewrite H1. reflexivity.
Qed.

(** Decoding undoes one escaping. *)
Lemma decode_escapeHtml s : decode_entities (escapeHtml s) = s.
Proof.
  unfold decode_entities. induction s as [|c s IH]; [reflexivity|].
  rewrite escapeHtml_cons, decode_go_esc_char, IH. reflexivity.
Qed.

(** *** The split *)

Lemma split_go_concat s acc b : concat (split_go s acc b) = rev acc ++ s.
Proof.
  revert acc b. induction s as [|c s IH]; intros acc b; simpl.
  - destruct b; simpl; rewrite ?app_nil_r; reflexivity.
  - destruct (Bool.eqb (is_space c) b).
    + rewrite IH. simpl. rewrite <- app_assoc. reflexivity.
    + simpl. rewrite IH. reflexivity.
Qed.

Lemma split_ws_concat text : concat (split_ws text) = text.
Proof. apply split_go_concat. Qed.

Lemma run_token_ok acc b :
  Forall (fun c => is_space c = b) acc -> (b = true -> acc <> []) ->
  token_ok (rev acc).
Proof.
  intros Hall Hne. destruct b.
  - left. unfold ws_only.
    destruct (rev acc) eqn:E.
    + exfalso. apply Hne; [reflexivity|].
      rewrite <- (rev_involutive acc), E. reflexivity.
    + rewrite <- E. apply forallb_forall. intros c Hc.
      apply in_rev in Hc. rewrite List.Forall_forall in Hall. auto.
  - right. unfold no_space. apply forallb_forall. intros c Hc.
    apply in_rev in Hc. rewrite List.Forall_forall in Hall.
    rewrite (Hall c Hc). reflexivity.
Qed.

Lemma split_go_tokens s acc b :
  Forall (fun c => is_space c = b) acc -> (b = true -> acc <> []) ->
  Forall token_ok (split_go s acc b).
Proof.
  revert acc b. induction s as [|c s IH]; intros acc b Hall Hne; simpl.
  - pose proof (run_token_ok acc b Hall Hne) as Hr.
    destruct b.
    + constructor; [exact Hr|]. constructor; [|constructor].
      right. reflexivity.
    + constructor; [exact Hr|constructor].
  - destruct (Bool.eqb (is_space c) b) eqn:E.
    + apply eqb_prop in E. apply IH.
      * constructor; assumption.
      * discriminate.
    + constructor.
      * apply (run_token_ok acc b); assumption.
      * apply IH; [|discriminate].
        constructor; [reflexivity|constructor].
Qed.

Lemma split_ws_tokens text : Forall token_ok (split_ws text).
Proof. apply split_go_tokens; [constructor | discriminate]. Qed.

(** *** The match *)

Section Formatter.

Variable letter_or_number : N -> bool.
Local Abbreviation core_len := (core_len letter_or_number).
Local Abbreviation match_core := (match_core letter_or_number).
Local Abbreviation wrap_token := (wrap_token letter_or_number).
Local Abbreviation bionicWrapText := (bionicWrapText letter_or_number).

Lemma core_len_le s : (core_len s <= length s)%nat.
Proof.
  assert (H : forall n s, (length s <= n)%nat -> (core_len s <= length s)%nat).
  { induction n as [|n IH]; intros t Ht.
    - destruct t; simpl in *; lia.
    - destruct t as [|c t]; simpl in *; [lia|].
      destruct (is_high c).
      + destruct t as [|lo t]; simpl in *.
        * destruct (core_cp _ c); lia.
        * destruct (is_low lo).
          -- destruct (core_cp _ _); [|lia].
             specialize (IH t). lia.
          -- destruct (core_cp _ c); [|lia].
             specialize (IH (lo :: t)). simpl in IH. lia.
      + destruct (core_cp _ c); [|lia]. specialize (IH t). lia. }
  apply (H (length s)). lia.
Qed.

Lemma match_core_Some token core rest :
  match_core token = Some (core, rest) ->
  token = core ++ rest /\ length core = core_len token /\
  (1 <= length core)%nat.
Proof.
  unfold JS.match_core. pose proof (core_len_le token) as Hle.
  destruct (core_len token) as [|n] eqn:E; [discriminate|].
  destruct (forallb _ _); [|discriminate].
  intros H. injection H as <- <-.
  rewrite firstn_skipn, length_firstn. repeat split; lia.
Qed.

Lemma match_core_None token :
  match_core token = None ->
  core_len token = 0%nat \/
  existsb is_line_terminator (skipn (core_len token) token) = true.
Proof.
  unfold JS.match_core.
  destruct (core_len token) as [|n] eqn:E; [left; reflexivity|].
  destruct (forallb _ _) eqn:F; [discriminate|]. intros _. right.
  apply not_true_iff_false in F.
  destruct (existsb _ _) eqn:X; [reflexivity|]. exfalso. apply F.
  apply forallb_forall. intros c Hc.
  destruct (is_line_terminator c) eqn:L; [|reflexivity].
  assert (existsb is_line_terminator (skipn (S n) token) = true)
    by (apply existsb_exists; eauto).
  congruence.
Qed.

(** *** The slices *)

Lemma rel_index_le x len : (rel_index x len <= len)%nat.
Proof.
  destruct x; simpl; try lia.
  destruct (Z.ltb_spec (u ÷ unit_den) 0); lia.
Qed.

Lemma rel_index_0 len : rel_index (of_Z 0) len = 0%nat.
Proof.
  rewrite of_Z_exact by (split; reflexivity).
  unfold rel_index. rewrite Z.mul_0_l, Z.quot_0_l by discriminate.
  simpl. lia.
Qed.

Lemma slice_prefix s k :
  slice s (of_Z 0) (Some k) = firstn (rel_index k (length s)) s.
Proof.
  unfold slice. rewrite rel_index_0. simpl. rewrite Nat.sub_0_r. reflexivity.
Qed.

Lemma slice_suffix s k :
  slice s k None = skipn (rel_index k (length s)) s.
Proof.
  unfold slice. apply firstn_all2. rewrite length_skipn. lia.
Qed.

Lemma slices_partition s k :
  slice s (of_Z 0) (Some k) ++ slice s k None = s.
Proof. rewrite slice_prefix, slice_suffix. apply firstn_skipn. Qed.

(** *** The effective ratio *)

Lemma of_Z_mono p q : p <= q -> le (of_Z p) (of_Z q).
Proof.
  intros H. pose proof unit_den_pos. unfold of_Z.
  apply round_q_mono; nia.
Qed.

Lemma of_Z_100 : of_Z 100 = Fin (100 * unit_den).
Proof. apply of_Z_exact. split; reflexivity. Qed.

Lemma percent_unfold p : div (of_Z p) (of_Z 100) = percent p.
Proof. unfold percent. reflexivity. Qed.

Lemma percent_mono p q : p <= q -> le (percent p) (percent q).
Proof.
  intros H. unfold percent. rewrite of_Z_100.
  apply div_mono_l; [pose proof unit_den_pos; lia|]. apply of_Z_mono, H.
Qed.

Lemma percent_5 : percent 5 = literal 5 100.
Proof. unfold percent. rewrite div_of_Z by (split; reflexivity). reflexivity. Qed.

Lemma percent_90 : percent 90 = literal 9 10.
Proof.
  unfold percent. rewrite div_of_Z by (split; reflexivity). unfold literal.
  change (90 * unit_den) with ((9 * unit_den) * 10).
  change 100 with (10 * 10) at 1.
  apply round_q_scale; lia.
Qed.

Lemma percent_4_lt : exists x, percent 4 = Fin x /\ x < units_0_05.
Proof.
  unfold percent. rewrite div_of_Z by (split; reflexivity).
  eexists. split; [vm_compute; reflexivity|reflexivity].
Qed.

Lemma percent_91_gt : exists x, percent 91 = Fin x /\ units_0_9 < x.
Proof.
  unfold percent. rewrite div_of_Z by (split; reflexivity).
  eexists. split; [vm_compute; reflexivity|reflexivity].
Qed.

Lemma le_Fin_l a y : le (Fin a) y -> y = PosInf \/ exists b, y = Fin b /\ a <= b.
Proof.
  destruct y; unfold le; simpl; try discriminate; auto.
  intros H. apply Z.leb_le in H. eauto.
Qed.

Lemma le_Fin_r x b : le x (Fin b) -> x = NegInf \/ exists a, x = Fin a /\ a <= b.
Proof.
  destruct x; unfold le; simpl; try discriminate; auto.
  intros H. apply Z.leb_le in H. eauto.
Qed.

Lemma effective_ratio_low p :
  p < 5 ->
  effective_ratio (of_Z p) = literal 5 100 /\ percent p <> literal 5 100.
Proof.
  intros Hp. destruct percent_4_lt as (x4 & E4 & L4).
  pose proof (percent_mono p 4 ltac:(lia)) as Hle. rewrite E4 in Hle.
  unfold effective_ratio. fold (percent p).
  rewrite literal_0_05, literal_0_9.
  pose proof units_0_05_lt_0_9.
  destruct (le_Fin_r _ _ Hle) as [->|(a & -> & Ha)].
  - split; [reflexivity|discriminate].
  - rewrite max_Fin, min_Fin. split; [f_equal; lia|].
    intros E. injection E as E. lia.
Qed.

Lemma effective_ratio_high p :
  90 < p ->
  effective_ratio (of_Z p) = literal 9 10 /\ percent p <> literal 9 10.
Proof.
  intros Hp. destruct percent_91_gt as (x91 & E91 & L91).
  pose proof (percent_mono 91 p ltac:(lia)) as Hle. rewrite E91 in Hle.
  unfold effective_ratio. fold (percent p).
  rewrite literal_0_05, literal_0_9.
  pose proof units_0_05_lt_0_9.
  destruct (le_Fin_l _ _ Hle) as [->|(a & -> & Ha)].
  - split; [reflexivity|discriminate].
  - rewrite max_Fin, min_Fin. split; [f_equal; lia|].
    intros E. injection E as E. lia.
Qed.

Lemma effective_ratio_mid p :
  5 <= p <= 90 -> effective_ratio (of_Z p) = percent p.
Proof.
  intros Hp.
  pose proof (percent_mono 5 p ltac:(lia)) as Hlo.
  pose proof (percent_mono p 90 ltac:(lia)) as Hhi.
  rewrite percent_5, literal_0_05 in Hlo. rewrite percent_90, literal_0_9 in Hhi.
  unfold effective_ratio. fold (percent p).
  rewrite literal_0_05, literal_0_9.
  destruct (le_Fin_l _ _ Hlo) as [E|(a & E & Ha)]; rewrite E in *.
  - discriminate.
  - apply le_Fin in Hhi. rewrite max_Fin, min_Fin. f_equal. lia.
Qed.

(** Whatever the argument, the effective ratio is NaN or lies between the
    two literals. *)
Lemma effective_ratio_range x :
  effective_ratio x = NaN \/
  (le (literal 5 100) (effective_ratio x) /\ le (effective_ratio x) (literal 9 10)).
Proof.
  unfold effective_ratio. rewrite literal_0_05, literal_0_9.
  pose proof units_0_05_lt_0_9.
  destruct (div x (of_Z 100)) as [| |u|]; [left; reflexivity|right..].
  - change (Num.max NegInf (Fin units_0_05)) with (Fin units_0_05).
    rewrite min_Fin. split; apply le_Fin; lia.
  - rewrite max_Fin, min_Fin. split; apply le_Fin; lia.
  - change (Num.min (Num.max PosInf (Fin units_0_05)) (Fin units_0_9))
      with (Fin units_0_9).
    split; apply le_Fin; lia.
Qed.

(** *** The bold prefix *)

Lemma bold_len_spec (n : nat) r :
  Z.of_nat n < 2 ^ prec -> (1 <= n)%nat -> 0 <= r <= unit_den ->
  exists p k,
    mul (of_nat n) (Fin r) = Fin p /\
    Z.of_nat k = Z.max 1 (cdiv p unit_den) /\
    bold_len n (Fin r) = of_nat k /\
    (1 <= k <= n)%nat /\
    rel_index (bold_len n (Fin r)) n = k.
Proof.
  intros Hn H1 Hr. pose proof unit_den_pos as HU.
  destruct (mul_ratio_bounds n r Hn Hr) as (p & Ep & Hp).
  pose proof (cdiv_bounds p unit_den (Z.of_nat n) HU Hp) as Hc.
  exists p, (Z.to_nat (Z.max 1 (cdiv p unit_den))).
  assert (Hk : Z.of_nat (Z.to_nat (Z.max 1 (cdiv p unit_den)))
               = Z.max 1 (cdiv p unit_den)) by lia.
  assert (Hb : bold_len n (Fin r) = Fin (Z.max 1 (cdiv p unit_den) * unit_den)).
  { unfold bold_len. rewrite Ep. unfold ceil.
    rewrite of_Z_exact by (split; reflexivity).
    rewrite max_Fin. f_equal. nia. }
  split; [exact Ep|]. split; [exact Hk|]. split.
  - rewrite Hb. unfold of_nat. rewrite of_Z_exact by lia. rewrite Hk. reflexivity.
  - split; [lia|]. rewrite Hb, rel_index_int by lia. lia.
Qed.

(** *** The text of a wrapped token *)

Lemma wrap_token_core ratio token core rest :
  ws_only token = false -> match_core token = Some (core, rest) ->
  wrap_token ratio token =
    open_word
    ++ escapeHtml (firstn (rel_index (bold_len (length core) ratio) (length core)) core)
    ++ close_span
    ++ escapeHtml (skipn (rel_index (bold_len (length core) ratio) (length core)) core)
    ++ escapeHtml rest ++ close_span.
Proof.
  intros Hw Hm. unfold JS.wrap_token. rewrite Hw, Hm.
  rewrite slice_prefix, slice_suffix. reflexivity.
Qed.

Lemma wrap_token_no_core ratio token :
  match_core token = None -> wrap_token ratio token = escapeHtml token.
Proof.
  intros Hm. unfold JS.wrap_token. rewrite Hm.
  destruct (ws_only token) eqn:Hw; [|reflexivity].
  symmetry. apply escapeHtml_spaces.
  unfold ws_only in Hw. destruct token; [discriminate|exact Hw].
Qed.

Lemma wrap_token_strip ratio token b :
  strip_go false (wrap_token ratio token ++ b)
  = escapeHtml token ++ strip_go false b.
Proof.
  destruct (match_core token) as [[core rest]|] eqn:Hm.
  - destruct (ws_only token) eqn:Hw.
    + unfold JS.wrap_token. rewrite Hw.
      assert (E : escapeHtml token = token).
      { apply escapeHtml_spaces. unfold ws_only in Hw.
        destruct token; [discriminate|exact Hw]. }
      assert (Hf : markup_free token)
        by (rewrite <- E; apply escapeHtml_markup_free).
      rewrite E. apply strip_go_text, Hf.
    + rewrite (wrap_token_core ratio token core rest Hw Hm).
      apply match_core_Some in Hm as (Ht & _ & _).
      repeat rewrite <- app_assoc.
      rewrite strip_go_open_word.
      rewrite strip_go_text by apply escapeHtml_markup_free.
      rewrite strip_go_close_span.
      rewrite strip_go_text by apply escapeHtml_markup_free.
      rewrite strip_go_text by apply escapeHtml_markup_free.
      rewrite strip_go_close_span.
      rewrite !app_assoc. f_equal.
      rewrite <- !escapeHtml_app, firstn_skipn, <- Ht. reflexivity.
  - rewrite wrap_token_no_core by assumption.
    apply strip_go_text, escapeHtml_markup_free.
Qed.

Lemma strip_wrapped_tokens ratio tokens :
  strip_markup (concat (List.map (wrap_token ratio) tokens))
  = escapeHtml (concat tokens).
Proof.
  unfold strip_markup. induction tokens as [|t ts IH]; [reflexivity|].
  simpl. rewrite wrap_token_strip, IH, escapeHtml_app. reflexivity.
Qed.

Lemma strip_bionicWrapText text ratioPercent :
  strip_markup (bionicWrapText text ratioPercent) = escapeHtml text.
Proof.
  unfold JS.bionicWrapText. rewrite strip_wrapped_tokens, split_ws_concat.
  reflexivity.
Qed.

Lemma visible_bionicWrapText text ratioPercent :
  visible_text (bionicWrapText text ratioPercent) = text.
Proof.
  unfold visible_text. rewrite strip_bionicWrapText. apply decode_escapeHtml.
Qed.

End Formatter.

(** *** [toFixed(2)] and the styles *)

Lemma toFixed2_nonneg u :
  0 <= u < 10 ^ 21 * unit_den -> toFixed2 (Fin u) = Some (fixed2 (hundredths u)).
Proof.
  intros [H0 H1]. unfold toFixed2.
  rewrite Z.abs_eq by lia.
  destruct (Z.leb_spec (10 ^ 21 * unit_den) u); [lia|].
  destruct (Z.ltb_spec u 0); [lia|].
  unfold fixed2, hundredths. rewrite Z.abs_eq by lia. reflexivity.
Qed.

Lemma In_Zrange lo len z :
  lo <= z < lo + Z.of_nat len -> In z (Zrange lo len).
Proof.
  intros H. unfold Zrange. apply in_map_iff.
  exists (Z.to_nat (z - lo)). split; [lia|].
  apply in_seq. lia.
Qed.

Lemma slider_ratios_ok :
  forallb (fun lh => forallb (ratio_ok lh) (Zrange 12 17)) (Zrange 12 17) = true.
Proof. vm_compute. reflexivity. Qed.

Lemma slider_ratio lh fs :
  12 <= lh <= 28 -> 12 <= fs <= 28 ->
  exists u, div (of_Z lh) (of_Z fs) = Fin u /\
            0 <= u < 10 ^ 21 * unit_den /\
            2 * Z.abs (hundredths u * fs - 100 * lh) <= fs.
Proof.
  intros Hl Hf.
  assert (H28 : 28 < 2 ^ prec) by reflexivity.
  rewrite div_of_Z by lia.
  pose proof slider_ratios_ok as H.
  rewrite forallb_forall in H. specialize (H lh (In_Zrange 12 17 lh ltac:(lia))).
  rewrite forallb_forall in H. specialize (H fs (In_Zrange 12 17 fs ltac:(lia))).
  unfold ratio_ok in H.
  destruct (round_q (lh * unit_den) fs) as [| |u|]; try discriminate.
  exists u. apply andb_true_iff in H as [H H3]. apply andb_true_iff in H as [H1 H2].
  apply Z.leb_le in H1, H3. apply Z.ltb_lt in H2. auto.
Qed.

Lemma applyStyles_sliders p :
  12 <= fontSize p <= 28 -> 12 <= lineHeight p <= 28 ->
  exists u v,
    div (of_Z (lineHeight p)) (of_Z (fontSize p)) = Fin u /\
    2 * Z.abs (hundredths u * fontSize p - 100 * lineHeight p) <= fontSize p /\
    div (of_Z (lineHeight p)) (of_Z 16) = Fin v /\
    2 * Z.abs (hundredths v * 16 - 100 * lineHeight p) <= 16 /\
    applyStyles p =
      Some {| pdfRawText := pdfRawText p;
              fontSize := fontSize p; lineHeight := lineHeight p;
              bionicIntensity := bionicIntensity p;
              softToggle := softToggle p;
              innerHTML := innerHTML p;
              style_fontSize := dec (fontSize p) ++ str "px";
              style_lineHeight := fixed2 (hundredths u);
              style_color :=
                if softToggle p then str "var(--soft-color)" else str "var(--text)";
              style_opacity := if softToggle p then str "0.95" else str "1";
              style_letterSpacing := if softToggle p then str "0.2px" else str "0";
              fontSizeLabel := dec (fontSize p);
              lineHeightLabel := fixed2 (hundredths v);
              bionicLabel := bionicLabel p;
              uploadedName := uploadedName p |}.
Proof.
  intros Hf Hl.
  destruct (slider_ratio (lineHeight p) (fontSize p) Hl Hf) as (u & Eu & Bu & Nu).
  destruct (slider_ratio (lineHeight p) 16 Hl ltac:(lia)) as (v & Ev & Bv & Nv).
  exists u, v. repeat (split; [assumption|]).
  unfold applyStyles. rewrite Eu, Ev.
  rewrite (toFixed2_nonneg u Bu), (toFixed2_nonneg v Bv). reflexivity.
Qed.

Lemma applyStyles_keeps_html p p' :
  applyStyles p = Some p' ->
  innerHTML p' = innerHTML p /\ bionicLabel p' = bionicLabel p /\
  uploadedName p' = uploadedName p /\ pdfRawText p' = pdfRawText p.
Proof.
  unfold applyStyles.
  destruct (toFixed2 _); [|discriminate]. destruct (toFixed2 _); [|discriminate].
  intros H. injection H as <-. simpl. auto.
Qed.

Lemma renderText_innerHTML letter_or_number p p' :
  renderText letter_or_number p = Some p' ->
  innerHTML p' =
    render_html letter_or_number (or_default (pdfRawText p) [])
      (of_Z (bionicIntensity p)).
Proof.
  unfold renderText. destruct (number_to_string _); [|discriminate].
  intros H. apply applyStyles_keeps_html in H as (H & _). exact H.
Qed.

(** What a reader sees of the rendered HTML is the raw text escaped once:
    the entities themselves, not the characters they stand for. *)
Lemma render_html_visible letter_or_number raw intensity :
  visible_text (render_html letter_or_number raw intensity) = escapeHtml raw.
Proof. unfold render_html. apply visible_bionicWrapText. Qed.

(** *** Binary64 against exact arithmetic *)

Lemma round_q_not_NaN n d : round_q n d <> NaN.
Proof.
  unfold round_q, round_pos.
  destruct (n <? 0); destruct (_ <? overflow_at); discriminate.
Qed.

Lemma percent_of_not_NaN x : x <> NaN -> div x (of_Z 100) <> NaN.
Proof.
  intros Hx. rewrite of_Z_100. pose proof unit_den_pos.
  assert (Hz : (100 * unit_den =? 0) = false) by (apply Z.eqb_neq; lia).
  assert (Hp : (0 <? 100 * unit_den) = true) by (apply Z.ltb_lt; lia).
  assert (Hn : (100 * unit_den <? 0) = false) by (apply Z.ltb_ge; lia).
  destruct x; unfold div; rewrite ?Hz, ?Hp, ?Hn; simpl;
    try discriminate; try congruence.
  apply round_q_not_NaN.
Qed.

Lemma effective_ratio_percent p :
  effective_ratio (of_Z p) = percent (Z.max 5 (Z.min 90 p)).
Proof.
  destruct (Z_lt_le_dec p 5) as [H|H].
  - replace (Z.max 5 (Z.min 90 p)) with 5 by lia.
    rewrite percent_5. exact (proj1 (effective_ratio_low p H)).
  - destruct (Z_le_gt_dec p 90) as [H'|H'].
    + replace (Z.max 5 (Z.min 90 p)) with p by lia.
      apply effective_ratio_mid. lia.
    + replace (Z.max 5 (Z.min 90 p)) with 90 by lia.
      rewrite percent_90. exact (proj1 (effective_ratio_high p ltac:(lia))).
Qed.

Lemma effective_ratio_units p :
  exists r, effective_ratio (of_Z p) = Fin r /\ 0 <= r <= unit_den.
Proof.
  destruct (effective_ratio_range (of_Z p)) as [E|[Hlo Hhi]].
  - exfalso. rewrite effective_ratio_percent in E.
    exact (percent_of_not_NaN _ (round_q_not_NaN _ _) E).
  - rewrite literal_0_05 in Hlo. rewrite literal_0_9 in Hhi.
    destruct (le_Fin_l _ _ Hlo) as [E|(r & E & Hr)]; rewrite E in *;
      [discriminate|].
    apply le_Fin in Hhi. pose proof units_0_05_pos. pose proof units_0_9_lt_1.
    exists r. split; [reflexivity|lia].
Qed.

Lemma cdiv_mono a b d : 0 < d -> a <= b -> cdiv a d <= cdiv b d.
Proof.
  intros Hd H. unfold cdiv.
  assert (- b / d <= - a / d) by (apply Z.div_le_mono; lia). lia.
Qed.

Lemma unit_den_big : 2 ^ 60 <= unit_den.
Proof. unfold unit_den, ebias. apply Z.pow_le_mono_r; lia. Qed.

Lemma percent_units c r :
  5 <= c <= 90 -> percent c = Fin r ->
  units_0_05 <= r <= units_0_9 /\
  2 ^ 53 * Z.abs (100 * r - c * unit_den) <= c * unit_den.
Proof.
  intros Hc E. split.
  - pose proof (percent_mono 5 c ltac:(lia)) as Hlo.
    pose proof (percent_mono c 90 ltac:(lia)) as Hhi.
    rewrite percent_5, literal_0_05, E in Hlo.
    rewrite percent_90, literal_0_9, E in Hhi.
    apply le_Fin in Hlo, Hhi. lia.
  - assert (H100 : 100 < 2 ^ prec) by reflexivity.
    unfold percent in E. rewrite div_of_Z in E by lia.
    pose proof unit_den_big as HU.
    apply round_q_Fin in E; [|lia]. subst r.
    pose proof (round_units_err (c * unit_den) 100 ltac:(lia) ltac:(lia)) as He.
    change (2 ^ prec) with 9007199254740992 in He.
    change (2 ^ 60) with 1152921504606846976 in HU.
    change (2 ^ 53) with 9007199254740992.
    specialize (He ltac:(lia)).
    replace (100 * round_units (c * unit_den) 100 - c * unit_den)
      with (round_units (c * unit_den) 100 * 100 - c * unit_den) by ring.
    exact He.
Qed.

Lemma product_units (n : nat) r P :
  (1 <= n)%nat -> Z.of_nat n < 2 ^ prec -> 2 ^ 53 <= r ->
  mul (of_nat n) (Fin r) = Fin P ->
  2 ^ 53 * Z.abs (P - Z.of_nat n * r) <= Z.of_nat n * r.
Proof.
  intros H1 Hn Hr M. pose proof unit_den_pos as HU.
  unfold of_nat in M. rewrite of_Z_exact in M by lia. unfold mul in M.
  assert (H53 : 0 < 2 ^ 53) by reflexivity.
  assert (Hnr : 2 ^ 53 <= Z.of_nat n * r) by nia.
  apply round_q_Fin in M; [|nia]. subst P.
  set (N := Z.of_nat n) in *.
  pose proof (round_units_err (N * unit_den * r) unit_den
                ltac:(nia) HU) as He.
  change (2 ^ prec) with (2 ^ 53) in He.
  assert (Hbig : 2 ^ 53 * unit_den <= N * unit_den * r) by nia.
  specialize (He Hbig).
  set (R := round_units (N * unit_den * r) unit_den) in *.
  replace (R * unit_den - N * unit_den * r) with (unit_den * (R - N * r)) in He
    by ring.
  rewrite Z.abs_mul, (Z.abs_eq unit_den) in He by lia.
  assert (unit_den * (2 ^ 53 * Z.abs (R - N * r)) <= unit_den * (N * r)) by lia.
  apply Z.mul_le_mono_pos_l in H; assumption.
Qed.

Lemma ceilings_close P U m :
  0 < U -> m * U - U < 100 * P < m * U + U ->
  cdiv m 100 <= cdiv P U <= cdiv m 100 + 1 /\
  (m mod 100 <> 0 -> cdiv P U = cdiv m 100).
Proof.
  intros HU [Hlo Hhi].
  pose proof (cdiv_spec P U HU) as [T1 T2].
  pose proof (cdiv_spec m 100 ltac:(lia)) as [Q1 Q2].
  set (T := cdiv P U) in *. set (Q := cdiv m 100) in *.
  assert (HQT : Q <= T).
  { destruct (Z_le_gt_dec Q T); [assumption|]. exfalso.
    assert (100 * T <= m - 1) by lia.
    assert (100 * T * U <= (m - 1) * U) by (apply Z.mul_le_mono_nonneg_r; lia).
    lia. }
  assert (HTQ : T <= Q + 1).
  { destruct (Z_le_gt_dec T (Q + 1)); [assumption|]. exfalso.
    assert ((Q + 2) * U <= T * U) by (apply Z.mul_le_mono_nonneg_r; lia).
    assert ((m + 100) * U <= 100 * (Q + 1) * U)
      by (apply Z.mul_le_mono_nonneg_r; lia).
    lia. }
  split; [lia|]. intros Hm.
  assert (100 * Q <> m).
  { intros E. apply Hm. rewrite <- E, Z.mul_comm. apply Z.mod_mul. lia. }
  destruct (Z.eq_dec T Q); [assumption|]. exfalso.
  assert ((Q + 1) * U <= T * U) by (apply Z.mul_le_mono_nonneg_r; lia).
  assert ((m + 1) * U <= 100 * Q * U) by (apply Z.mul_le_mono_nonneg_r; lia).
  lia.
Qed.

Lemma bold_length_exact_bounds (n : nat) (p : Z) :
  (1 <= n)%nat -> Z.of_nat n < 2 ^ 45 ->
  let c := Z.max 5 (Z.min 90 p) in
  let k := Z.of_nat (rel_index (bold_len n (effective_ratio (of_Z p))) n) in
  let K := Z.max 1 (cdiv (Z.of_nat n * c) 100) in
  K <= k <= K + 1 /\ ((Z.of_nat n * c) mod 100 <> 0 -> k = K).
Proof.
  intros H1 Hn c k K.
  assert (Hc : 5 <= c <= 90) by (unfold c; lia).
  assert (H45 : 2 ^ 45 < 2 ^ prec) by reflexivity.
  destruct (effective_ratio_units p) as (r & E & B).
  assert (Ep : percent c = Fin r) by (rewrite <- E; symmetry; apply effective_ratio_percent).
  destruct (percent_units c r Hc Ep) as ([R1 R2] & Herr1).
  assert (Hr53 : 2 ^ 53 <= r).
  { assert (2 ^ 53 <= units_0_05) by (apply Z.leb_le; reflexivity). lia. }
  destruct (bold_len_spec n r ltac:(lia) H1 B) as (P & k' & M & Hk' & _ & _ & I).
  pose proof (product_units n r P H1 ltac:(lia) Hr53 M) as Herr2.
  assert (Hk : k = Z.max 1 (cdiv P unit_den)).
  { unfold k. rewrite E, I. exact Hk'. }
  pose proof unit_den_pos as HU.
  assert (Hclose : Z.of_nat n * c * unit_den - unit_den < 100 * P
                   < Z.of_nat n * c * unit_den + unit_den).
  { set (N := Z.of_nat n) in *. set (U := unit_den) in *.
    change (2 ^ 53) with 9007199254740992 in *.
    change (2 ^ 45) with 35184372088832 in *.
    assert (HN : 1 <= N) by (unfold N; lia).
    assert (Hnr : N * r <= N * U) by (apply Z.mul_le_mono_nonneg_l; lia).
    assert (Hcu : c * U <= 90 * U) by (apply Z.mul_le_mono_nonneg_r; lia).
    assert (Ha : 9007199254740992 * Z.abs (P - N * r) <= N * U) by lia.
    assert (Hb : 9007199254740992 * Z.abs (100 * r - c * U) <= 90 * U) by lia.
    assert (Hb' : 9007199254740992 * (N * Z.abs (100 * r - c * U)) <= N * (90 * U)).
    { replace (9007199254740992 * (N * Z.abs (100 * r - c * U)))
        with (N * (9007199254740992 * Z.abs (100 * r - c * U))) by ring.
      apply Z.mul_le_mono_nonneg_l; lia. }
    assert (Hnu : N * U < 35184372088832 * U)
      by (apply Z.mul_lt_mono_pos_r; lia).
    assert (Hsplit : 100 * P - N * c * U
                     = 100 * (P - N * r) + N * (100 * r - c * U)) by ring.
    assert (Htri : Z.abs (100 * P - N * c * U)
                   <= 100 * Z.abs (P - N * r) + N * Z.abs (100 * r - c * U)).
    { rewrite Hsplit.
      eapply Z.le_trans; [apply Z.abs_triangle|].
      rewrite !Z.abs_mul, (Z.abs_eq 100), (Z.abs_eq N) by lia. lia. }
    assert (Z.abs (100 * P - N * c * U) < U) by lia.
    lia. }
  destruct (ceilings_close P unit_den (Z.of_nat n * c) HU Hclose) as [Hb Heq].
  fold K in Hb. unfold K in *. split; [lia|].
  intros Hm. specialize (Heq Hm). lia.
Qed.

(** The ceiling of the rounded product against the ceiling of the exact
    product [n * u / unit_den]: the same or one less, and one less only
    when the rounded product is that integer. *)
Lemma product_ceiling (n : nat) u P :
  Z.of_nat n < 2 ^ prec -> 0 <= u <= unit_den ->
  mul (of_nat n) (Fin u) = Fin P ->
  cdiv (Z.of_nat n * u) unit_den - 1 <= cdiv P unit_den
    <= cdiv (Z.of_nat n * u) unit_den /\
  (cdiv P unit_den < cdiv (Z.of_nat n * u) unit_den ->
   P = cdiv P unit_den * unit_den).
Proof.
  intros Hn Hu M. pose proof unit_den_pos as HU.
  set (N := Z.of_nat n) in *.
  assert (HN : 0 <= N) by (unfold N; lia).
  assert (Hnu : 0 <= N * u <= N * unit_den).
  { split; [apply Z.mul_nonneg_nonneg; lia|].
    apply Z.mul_le_mono_nonneg_l; lia. }
  pose proof (cdiv_spec (N * u) unit_den HU) as [S1 S2].
  pose proof (cdiv_bounds (N * u) unit_den N HU Hnu) as Hm.
  set (m := cdiv (N * u) unit_den) in *.
  unfold of_nat in M. fold N in M. rewrite of_Z_exact in M by lia.
  unfold mul in M.
  assert (Hup : P <= m * unit_den).
  { apply le_Fin. rewrite <- M, <- (of_Z_exact m) by lia. unfold of_Z.
    apply round_q_mono; try lia.
    replace (N * unit_den * u * 1) with (N * u * unit_den) by ring.
    apply Z.mul_le_mono_nonneg_r; lia. }
  assert (Hlo : 0 <= P /\ (1 <= m -> (m - 1) * unit_den <= P)).
  { split.
    - apply le_Fin. rewrite <- M.
      unfold round_q. destruct (Z.ltb_spec (N * unit_den * u) 0).
      + exfalso. assert (0 <= N * unit_den * u); [|lia].
        apply Z.mul_nonneg_nonneg; [apply Z.mul_nonneg_nonneg|]; lia.
      + apply round_pos_ge_0; lia.
    - intros H1. apply le_Fin. rewrite <- M, <- (of_Z_exact (m - 1)) by lia.
      unfold of_Z. apply round_q_mono; try lia.
      replace (N * unit_den * u * 1) with (N * u * unit_den) by ring.
      apply Z.mul_le_mono_nonneg_r; lia. }
  destruct Hlo as [HP0 HPm].
  pose proof (cdiv_spec P unit_den HU) as [T1 T2].
  set (t := cdiv P unit_den) in *.
  assert (Ht0 : 0 <= t).
  { destruct (Z_le_gt_dec 0 t); [assumption|]. exfalso.
    assert (t * unit_den <= (-1) * unit_den)
      by (apply Z.mul_le_mono_nonneg_r; lia). lia. }
  assert (Htm : t <= m).
  { destruct (Z_le_gt_dec t m); [assumption|]. exfalso.
    assert ((m + 1) * unit_den <= t * unit_den)
      by (apply Z.mul_le_mono_nonneg_r; lia). lia. }
  assert (Hmt : m - 1 <= t).
  { destruct (Z_le_gt_dec (m - 1) t); [assumption|]. exfalso.
    assert (1 <= m) by lia. specialize (HPm H).
    assert (t * unit_den <= (m - 2) * unit_den)
      by (apply Z.mul_le_mono_nonneg_r; lia). lia. }
  split; [lia|]. intros Hlt.
  assert (t = m - 1) by lia. assert (1 <= m) by lia.
  specialize (HPm H0). subst t. rewrite H in *. lia.
Qed.

(** ** The claims about the script *)

(** C1 (the script escapes the text twice).  [renderText] escapes the raw
    text and hands the result to [bionicWrapText], which escapes every
    fragment again.  For the raw text [AT&T] at intensity 35 the HTML holds
    [&amp;amp;] where the claim requires [&amp;], and the reader sees
    [AT&amp;T]. *)
Theorem renderText_escapes_twice :
  render_html basic_latin (str "AT&T") (of_Z 35)
  = open_word ++ str "A" ++ close_span ++ str "T&amp;amp;T" ++ close_span
  /\ visible_text (render_html basic_latin (str "AT&T") (of_Z 35))
     = str "AT&amp;T".
Proof.
  split; [vm_compute; reflexivity|].
  rewrite render_html_visible. reflexivity.
Qed.

(** C2.  The split of [bionicWrapText] loses nothing: its tokens,
    concatenated, are the text; each is a whitespace run or free of
    whitespace, and a whitespace run is emitted verbatim.  Dropping the tags
    from the formatter's output leaves the escaped text, and decoding the
    entities gives back the original text exactly. *)
Theorem bionicWrapText_lossless (letter_or_number : N -> bool)
  (text : jsstring) (ratioPercent : number) :
  concat (split_ws text) = text /\
  Forall token_ok (split_ws text) /\
  Forall (fun t => ws_only t = true ->
                   wrap_token letter_or_number (effective_ratio ratioPercent) t = t)
         (split_ws text) /\
  strip_markup (bionicWrapText letter_or_number text ratioPercent)
  = escapeHtml text /\
  visible_text (bionicWrapText letter_or_number text ratioPercent) = text.
Proof.
  split; [apply split_ws_concat|].
  split; [apply split_ws_tokens|].
  split.
  - apply List.Forall_forall. intros t _ Hw. unfold wrap_token. rewrite Hw.
    reflexivity.
  - split; [apply strip_bionicWrapText|apply visible_bionicWrapText].
Qed.

(** C3, as stated, fails on the code.  The word [abcdefghijklmnopqrstuvwxy]
    has a core of 25 code units; at intensity 28 the effective ratio is the
    binary64 number nearest to 0.28 and the formatter bolds 8 code units,
    while [max(1, ceil(25 * 28 / 100))] is 7.  Taking the ratio to be the
    binary64 number itself and the product exact does not save the formula:
    at intensity 10 a core of 10 code units gets 1 bold code unit, while
    that product is just above 1 and its ceiling is 2. *)
Lemma bold_prefix_not_exact :
  (le (literal 5 100) (effective_ratio (of_Z 28)) /\
   le (effective_ratio (of_Z 28)) (literal 9 10) /\
   ws_only word25 = false /\
   match_core basic_latin word25 = Some (word25, []) /\
   wrap_token basic_latin (effective_ratio (of_Z 28)) word25
   = open_word ++ str "abcdefgh" ++ close_span ++ str "ijklmnopqrstuvwxy"
     ++ close_span /\
   rel_index (bold_len 25 (effective_ratio (of_Z 28))) 25 = 8%nat /\
   exact_bold_len 25 28 100 = 7) /\
  (exists u,
      effective_ratio (of_Z 10) = Fin u /\
      rel_index (bold_len 10 (Fin u)) 10 = 1%nat /\
      exact_bold_len 10 u unit_den = 2).
Proof.
  split.
  - repeat split; vm_compute; reflexivity.
  - eexists. split; [vm_compute; reflexivity|].
    split; vm_compute; reflexivity.
Qed.

(** C3, amended.  For an effective ratio [r] between the literals 0.05 and
    0.9 and a token that is not whitespace: if the token has a leading core
    of length [n] (at least 1 by the match, below [2^53] as every string
    length), the formatter bolds [k] code units, where [k] is
    [max(1, ceil(P))] for the binary64 product [P] of [n] and [r], not for
    the exact product.  Against exact arithmetic with the binary64 ratio,
    [k] is [max(1, ceil(n * r))] or one less, and one less only when the
    binary64 product is the integer [k] itself.  When [r] is the effective
    ratio of an integer intensity, clamped to [c], and [n < 2^45], [k] is
    [max(1, ceil(n * c / 100))] if [n * c] is not a multiple of 100, and
    that value or one more if it is.  In every case [1 <= k <= n], the bold
    prefix is the first [k] code units of the core and the normal suffix
    the other [n - k], and the token is emitted as the two spans around
    the escaped pieces.  A token without a leading core is emitted as its
    escaped text. *)
Theorem bold_prefix_split (letter_or_number : N -> bool) (r : number) :
  le (literal 5 100) r -> le r (literal 9 10) ->
  (forall token core rest,
      ws_only token = false ->
      match_core letter_or_number token = Some (core, rest) ->
      Z.of_nat (length core) < 2 ^ 53 ->
      exists (u : Z) (k : nat),
        r = Fin u /\
        rel_index (bold_len (length core) r) (length core) = k /\
        bold_len (length core) r = of_nat k /\
        exact_bold_len (length core) u unit_den - 1 <= Z.of_nat k
          <= exact_bold_len (length core) u unit_den /\
        (Z.of_nat k < exact_bold_len (length core) u unit_den ->
         mul (of_nat (length core)) r = of_nat k) /\
        (forall p : Z,
            r = effective_ratio (of_Z p) ->
            Z.of_nat (length core) < 2 ^ 45 ->
            exact_bold_len (length core) (Z.max 5 (Z.min 90 p)) 100
              <= Z.of_nat k
              <= exact_bold_len (length core) (Z.max 5 (Z.min 90 p)) 100 + 1 /\
            ((Z.of_nat (length core) * Z.max 5 (Z.min 90 p)) mod 100 <> 0 ->
             Z.of_nat k
             = exact_bold_len (length core) (Z.max 5 (Z.min 90 p)) 100)) /\
        (1 <= k <= length core)%nat /\
        length (firstn k core) = k /\
        length (skipn k core) = (length core - k)%nat /\
        wrap_token letter_or_number r token
        = open_word ++ escapeHtml (firstn k core) ++ close_span
          ++ escapeHtml (skipn k core) ++ escapeHtml rest ++ close_span) /\
  (forall token,
      ws_only token = false ->
      match_core letter_or_number token = None ->
      wrap_token letter_or_number r token = escapeHtml token).
Proof.
  intros Hlo Hhi. split.
  - intros token core rest Hw Hm Hn.
    pose proof (match_core_Some _ _ _ _ Hm) as (_ & _ & H1).
    rewrite literal_0_05 in Hlo. rewrite literal_0_9 in Hhi.
    destruct (le_Fin_l _ _ Hlo) as [E|(x & E & Hx)]; rewrite E in *;
      [discriminate|].
    apply le_Fin in Hhi.
    pose proof units_0_05_pos. pose proof units_0_9_lt_1.
    pose proof unit_den_pos as HU.
    assert (Hx01 : 0 <= x <= unit_den) by lia.
    destruct (bold_len_spec (length core) x Hn H1 Hx01)
      as (P & k & EP & Ek & Eb & Hk & Ei).
    destruct (product_ceiling (length core) x P Hn Hx01 EP) as [Hc Hint].
    exists x, k. unfold exact_bold_len.
    split; [reflexivity|]. split; [exact Ei|]. split; [exact Eb|].
    split; [lia|]. split.
    { intros Hlt. rewrite EP. unfold of_nat.
      rewrite of_Z_exact by (unfold prec; lia). f_equal.
      assert (Hcp : cdiv P unit_den < cdiv (Z.of_nat (length core) * x) unit_den)
        by lia.
      rewrite (Hint Hcp) at 1. f_equal. lia. }
    split.
    { intros p Hr H45.
      pose proof (bold_length_exact_bounds (length core) p H1 H45) as Hb.
      cbv zeta in Hb. rewrite <- Hr, Ei in Hb. exact Hb. }
    rewrite length_firstn, length_skipn.
    repeat (split; [assumption || lia|]).
    rewrite (wrap_token_core _ _ _ _ _ Hw Hm), Ei. reflexivity.
  - intros token _ Hm. apply wrap_token_no_core, Hm.
Qed.

Lemma bold_prefix_split_witness :
  exists k : nat,
    rel_index (bold_len 3 (effective_ratio (of_Z 35))) 3 = k /\
    Z.of_nat k = exact_bold_len 3 35 100 /\
    (1 <= k <= 3)%nat /\
    wrap_token basic_latin (effective_ratio (of_Z 35)) (str "fun!")
    = open_word ++ escapeHtml (firstn k (str "fun")) ++ close_span
      ++ escapeHtml (skipn k (str "fun")) ++ escapeHtml (str "!") ++ close_span.
Proof.
  destruct (proj1 (bold_prefix_split basic_latin (effective_ratio (of_Z 35))
                     ltac:(vm_compute; reflexivity)
                     ltac:(vm_compute; reflexivity))
              (str "fun!") (str "fun") (str "!")
              ltac:(reflexivity) ltac:(reflexivity) ltac:(reflexivity))
    as (u & k & _ & Hi & _ & _ & _ & Hp & Hk & _ & _ & Hw).
  exists k. split; [exact Hi|]. split.
  - exact (proj2 (Hp 35 eq_refl ltac:(reflexivity)) ltac:(discriminate)).
  - split; [exact Hk|exact Hw].
Defined.

(** C4.  For every integer intensity the effective ratio is the intensity
    clamped to [5, 90], divided by 100 (the binary64 quotient).  Below 5 it
    is the literal 0.05 and above 90 the literal 0.9, and in both cases it
    differs from the raw intensity divided by 100. *)
Theorem effective_ratio_clamped (p : Z) :
  effective_ratio (of_Z p) = div (of_Z (Z.max 5 (Z.min 90 p))) (of_Z 100) /\
  (p < 5 ->
   effective_ratio (of_Z p) = literal 5 100 /\
   div (of_Z p) (of_Z 100) <> effective_ratio (of_Z p)) /\
  (90 < p ->
   effective_ratio (of_Z p) = literal 9 10 /\
   div (of_Z p) (of_Z 100) <> effective_ratio (of_Z p)).
Proof.
  rewrite !percent_unfold. split; [|split].
  - destruct (Z_lt_le_dec p 5) as [H|H].
    + replace (Z.max 5 (Z.min 90 p)) with 5 by lia.
      rewrite percent_5. exact (proj1 (effective_ratio_low p H)).
    + destruct (Z_le_gt_dec p 90) as [H'|H'].
      * replace (Z.max 5 (Z.min 90 p)) with p by lia.
        apply effective_ratio_mid. lia.
      * replace (Z.max 5 (Z.min 90 p)) with 90 by lia.
        rewrite percent_90. exact (proj1 (effective_ratio_high p ltac:(lia))).
  - intros H. destruct (effective_ratio_low p H) as [E N].
    split; [exact E|]. rewrite E. exact N.
  - intros H. destruct (effective_ratio_high p H) as [E N].
    split; [exact E|]. rewrite E. exact N.
Qed.

Lemma effective_ratio_clamped_witness :
  effective_ratio (of_Z 3) = literal 5 100 /\
  effective_ratio (of_Z 200) = literal 9 10.
Proof.
  split.
  - exact (proj1 (proj1 (proj2 (effective_ratio_clamped 3)) ltac:(lia))).
  - exact (proj1 (proj2 (proj2 (effective_ratio_clamped 200)) ltac:(lia))).
Defined.

(** C7.  For slider values (both between 12 and 28), [applyStyles] sets the
    font size to the value followed by [px] and the line height to the
    ratio of the line-height value to the font-size value printed with two
    decimals, the printed hundredths being nearest to the exact ratio.  With
    soft text on it sets the muted colour, opacity 0.95 and letter spacing
    0.2px; with soft text off the text colour, opacity 1 and letter
    spacing 0. *)
Theorem applyStyles_sets_styles (p : page) :
  12 <= fontSize p <= 28 -> 12 <= lineHeight p <= 28 ->
  exists (p' : page) (n : Z),
    applyStyles p = Some p' /\
    style_fontSize p' = dec (fontSize p) ++ str "px" /\
    style_lineHeight p' = fixed2 n /\
    2 * Z.abs (n * fontSize p - 100 * lineHeight p) <= fontSize p /\
    (softToggle p = true ->
     style_color p' = str "var(--soft-color)" /\
     style_opacity p' = str "0.95" /\
     style_letterSpacing p' = str "0.2px") /\
    (softToggle p = false ->
     style_color p' = str "var(--text)" /\
     style_opacity p' = str "1" /\
     style_letterSpacing p' = str "0").
Proof.
  intros Hf Hl.
  destruct (applyStyles_sliders p Hf Hl) as (u & v & _ & Hn & _ & _ & E).
  eexists. exists (hundredths u). split; [exact E|]. simpl.
  repeat (split; [reflexivity || assumption|]).
  split; intros ->; repeat split.
Qed.

Lemma applyStyles_sets_styles_witness :
  exists (p' : page) (n : Z),
    applyStyles initial_page = Some p' /\
    style_fontSize p' = str "16px" /\
    style_lineHeight p' = fixed2 n /\
    2 * Z.abs (n * 16 - 100 * 24) <= 16.
Proof.
  destruct (applyStyles_sets_styles initial_page
              ltac:(simpl; lia) ltac:(simpl; lia))
    as (p' & n & E & Hs & Hh & Hn & _).
  exists p', n. split; [exact E|]. split; [exact Hs|]. split; [exact Hh|exact Hn].
Defined.

End JSFacts.

(** ** Further properties of the script *)
Module JSExtra.
Import Num NumFacts JS JSFacts.

(** *** [escapeHtml] *)

(** The five successive replacements act as one substitution, character by
    character: the ampersand of an entity inserted by one pass is not
    escaped again by the passes that follow. *)
Theorem escapeHtml_one_pass (s : jsstring) :
  escapeHtml s = flat_map esc_char s.
Proof. apply escapeHtml_flat. Qed.

(** The escaped text has no angle bracket and no quote of either kind. *)
Theorem escapeHtml_safe (s : jsstring) :
  Forall (fun c => c <> lt_c /\ c <> gt_c /\ c <> quot_c /\ c <> apos_c)
         (escapeHtml s).
Proof.
  induction s as [|c s IH]; [constructor|].
  rewrite escapeHtml_cons. apply Forall_app. split; [|exact IH].
  unfold esc_char.
  destruct (N.eqb_spec c amp_c); [repeat constructor; discriminate|].
  destruct (N.eqb_spec c lt_c); [repeat constructor; discriminate|].
  destruct (N.eqb_spec c gt_c); [repeat constructor; discriminate|].
  destruct (N.eqb_spec c quot_c); [repeat constructor; discriminate|].
  destruct (N.eqb_spec c apos_c); [repeat constructor; discriminate|].
  repeat constructor; assumption.
Qed.

(** Different texts have different escaped forms. *)
Theorem escapeHtml_injective (a b : jsstring) :
  a <> b -> escapeHtml a <> escapeHtml b.
Proof.
  intros Hne H. apply Hne.
  rewrite <- (decode_escapeHtml a), <- (decode_escapeHtml b), H.
  reflexivity.
Qed.

Lemma escapeHtml_injective_witness :
  escapeHtml (str "<") <> escapeHtml (str "&lt;").
Proof.
  apply (escapeHtml_injective (str "<") (str "&lt;")). discriminate.
Defined.

Lemma esc_char_length c :
  (1 <= length (esc_char c))%nat /\
  (special c = true -> 1 < length (esc_char c))%nat.
Proof.
  unfold esc_char, special.
  destruct (N.eqb c amp_c); [simpl; split; intros; lia|].
  destruct (N.eqb c lt_c); [simpl; split; intros; lia|].
  destruct (N.eqb c gt_c); [simpl; split; intros; lia|].
  destruct (N.eqb c quot_c); [simpl; split; intros; lia|].
  destruct (N.eqb c apos_c); [simpl; split; intros; lia|].
  simpl. split; [lia|discriminate].
Qed.

Lemma escapeHtml_length s : (length s <= length (escapeHtml s))%nat.
Proof.
  induction s as [|c s IH]; [simpl; lia|].
  rewrite escapeHtml_cons, length_app. simpl.
  pose proof (proj1 (esc_char_length c)). lia.
Qed.

Lemma escapeHtml_fixed s :
  escapeHtml s = s <-> forallb (fun c => negb (special c)) s = true.
Proof.
  split; [|apply escapeHtml_plain].
  intros H. assert (L : length (escapeHtml s) = length s) by (rewrite H; reflexivity).
  clear H. induction s as [|c s IH]; [reflexivity|].
  rewrite escapeHtml_cons, length_app in L. simpl in L.
  pose proof (esc_char_length c) as [H1 H2].
  pose proof (escapeHtml_length s).
  simpl. destruct (special c) eqn:Sp.
  - specialize (H2 eq_refl). lia.
  - simpl. apply IH. lia.
Qed.

(** Escaping changes a text exactly when the text has one of the five
    characters, and it never shortens it. *)
Theorem escapeHtml_fixed_iff (s : jsstring) :
  (escapeHtml s = s <-> forallb (fun c => negb (special c)) s = true) /\
  (length s <= length (escapeHtml s))%nat.
Proof. split; [apply escapeHtml_fixed|apply escapeHtml_length]. Qed.

(** *** The split *)

Lemma run_kind acc b :
  Forall (fun c => is_space c = b) acc -> (b = true -> acc <> []) ->
  if b then ws_only (rev acc) = true else no_space (rev acc) = true.
Proof.
  intros Hall Hne. destruct b.
  - unfold ws_only. destruct (rev acc) eqn:E.
    + exfalso. apply Hne; [reflexivity|].
      rewrite <- (rev_involutive acc), E. reflexivity.
    + rewrite <- E. apply forallb_forall. intros c Hc.
      apply in_rev in Hc. rewrite List.Forall_forall in Hall. auto.
  - unfold no_space. apply forallb_forall. intros c Hc.
    apply in_rev in Hc. rewrite List.Forall_forall in Hall.
    rewrite (Hall c Hc). reflexivity.
Qed.

Lemma split_go_alternates s acc b :
  Forall (fun c => is_space c = b) acc -> (b = true -> acc <> []) ->
  alternates b (split_go s acc b)
  /\ Nat.odd (length (split_go s acc b)) = negb b.
Proof.
  revert acc b. induction s as [|c s IH]; intros acc b Hall Hne; simpl.
  - pose proof (run_kind acc b Hall Hne) as Hr.
    destruct b; simpl; auto.
  - destruct (Bool.eqb (is_space c) b) eqn:E.
    + apply eqb_prop in E. apply IH; [constructor; assumption|discriminate].
    + assert (Hc : is_space c = negb b)
        by (destruct (is_space c), b; simpl in *; congruence).
      rewrite Hc.
      destruct (IH [c] (negb b)) as [Ha Ho].
      * constructor; [exact Hc|constructor].
      * discriminate.
      * split.
        -- simpl. split; [apply (run_kind acc b Hall Hne)|exact Ha].
        -- cbn [length]. rewrite Nat.odd_succ, <- Nat.negb_odd, Ho.
           apply negb_involutive.
Qed.

(** The split always has an odd number of tokens: pieces without
    whitespace at the even positions (possibly empty at the two ends),
    whitespace runs at the odd ones. *)
Theorem split_ws_alternates (text : jsstring) :
  alternates false (split_ws text)
  /\ Nat.odd (length (split_ws text)) = true.
Proof.
  apply (split_go_alternates text [] false); [constructor|discriminate].
Qed.

(** *** The formatter *)

(** Whatever number is passed as intensity, the effective ratio lies
    between the two literals; only NaN gives NaN. *)
Theorem effective_ratio_bounds (x : number) :
  (x = NaN -> effective_ratio x = NaN) /\
  (x <> NaN ->
   le (literal 5 100) (effective_ratio x) /\
   le (effective_ratio x) (literal 9 10)).
Proof.
  split; [intros ->; reflexivity|]. intros Hx.
  destruct (effective_ratio_range x) as [E|H]; [|exact H].
  exfalso. apply (percent_of_not_NaN x Hx).
  unfold effective_ratio in E. rewrite literal_0_05, literal_0_9 in E.
  destruct (div x (of_Z 100)); [reflexivity|discriminate| |discriminate].
  rewrite max_Fin, min_Fin in E. discriminate.
Qed.

Lemma effective_ratio_bounds_witness :
  le (literal 5 100) (effective_ratio PosInf) /\
  le (effective_ratio PosInf) (literal 9 10).
Proof.
  exact (proj2 (effective_ratio_bounds PosInf) ltac:(discriminate)).
Defined.

(** A higher intensity never bolds fewer characters of a word. *)
Theorem bold_length_monotone (n : nat) (p q : Z) :
  Z.of_nat n < 2 ^ 53 -> p <= q ->
  (rel_index (bold_len n (effective_ratio (of_Z p))) n
   <= rel_index (bold_len n (effective_ratio (of_Z q))) n)%nat.
Proof.
  intros Hn Hpq.
  destruct n as [|n'].
  { pose proof (rel_index_le (bold_len 0 (effective_ratio (of_Z p))) 0). lia. }
  set (n := S n') in *.
  assert (Hle : le (effective_ratio (of_Z p)) (effective_ratio (of_Z q))).
  { rewrite !effective_ratio_percent. apply percent_mono. lia. }
  destruct (effective_ratio_units p) as (r1 & E1 & B1).
  destruct (effective_ratio_units q) as (r2 & E2 & B2).
  rewrite E1, E2 in *. apply le_Fin in Hle.
  destruct (bold_len_spec n r1 Hn ltac:(unfold n; lia) B1)
    as (p1 & k1 & M1 & K1 & _ & _ & I1).
  destruct (bold_len_spec n r2 Hn ltac:(unfold n; lia) B2)
    as (p2 & k2 & M2 & K2 & _ & _ & I2).
  rewrite I1, I2.
  assert (Hp : p1 <= p2).
  { apply le_Fin. rewrite <- M1, <- M2.
    unfold of_nat. rewrite of_Z_exact by (unfold prec; lia). unfold mul.
    pose proof unit_den_pos.
    apply round_q_mono; try lia.
    apply Z.mul_le_mono_nonneg_r; [lia|].
    apply Z.mul_le_mono_nonneg_l; [lia|exact Hle]. }
  pose proof (cdiv_mono p1 p2 unit_den unit_den_pos Hp). lia.
Qed.

Lemma bold_length_monotone_witness :
  (rel_index (bold_len 7 (effective_ratio (of_Z 10))) 7
   <= rel_index (bold_len 7 (effective_ratio (of_Z 60))) 7)%nat.
Proof.
  apply (bold_length_monotone 7 10 60); [reflexivity|lia].
Defined.

Lemma mul_NaN_r x : mul x NaN = NaN.
Proof. destruct x; reflexivity. Qed.

Lemma max_NaN_r x : Num.max x NaN = NaN.
Proof. destruct x; reflexivity. Qed.

(** When the intensity is not a number nothing is bold: the strong span
    is empty and the whole core follows it. *)
Theorem not_a_number_bolds_nothing (letter_or_number : N -> bool)
  (token core rest : jsstring) :
  ws_only token = false ->
  match_core letter_or_number token = Some (core, rest) ->
  wrap_token letter_or_number (effective_ratio NaN) token
  = open_word ++ close_span ++ escapeHtml core ++ escapeHtml rest ++ close_span.
Proof.
  intros Hw Hm.
  rewrite (wrap_token_core _ _ _ _ _ Hw Hm).
  change (effective_ratio NaN) with NaN.
  unfold bold_len. rewrite mul_NaN_r. simpl ceil. rewrite max_NaN_r.
  reflexivity.
Qed.

Lemma not_a_number_bolds_nothing_witness :
  wrap_token basic_latin (effective_ratio NaN) (str "fun!")
  = open_word ++ close_span ++ escapeHtml (str "fun") ++ escapeHtml (str "!")
    ++ close_span.
Proof.
  apply (not_a_number_bolds_nothing basic_latin (str "fun!") (str "fun") (str "!"));
    reflexivity.
Defined.

Lemma wrap_token_spaces letter_or_number ratio t :
  forallb is_space t = true -> wrap_token letter_or_number ratio t = t.
Proof.
  intros H. destruct t as [|c t]; [reflexivity|].
  unfold wrap_token, ws_only. rewrite H. reflexivity.
Qed.

(** A text of whitespace only, the empty text included, is returned as it
    is, without any markup. *)
Theorem bionicWrapText_blank (letter_or_number : N -> bool)
  (text : jsstring) (ratioPercent : number) :
  forallb is_space text = true ->
  bionicWrapText letter_or_number text ratioPercent = text.
Proof.
  intros H. unfold bionicWrapText.
  rewrite <- (split_ws_concat text) at 2.
  assert (Hall : forall t, In t (split_ws text) -> forallb is_space t = true).
  { intros t Ht. apply forallb_forall. intros c Hc.
    rewrite forallb_forall in H. apply H.
    rewrite <- (split_ws_concat text). apply in_concat. eauto. }
  induction (split_ws text) as [|t ts IH]; [reflexivity|].
  simpl. rewrite wrap_token_spaces by (apply Hall; left; reflexivity).
  rewrite IH; [reflexivity|]. intros u Hu. apply Hall. right. exact Hu.
Qed.

Lemma bionicWrapText_blank_witness :
  bionicWrapText basic_latin (str "   ") (of_Z 35) = str "   ".
Proof.
  apply (bionicWrapText_blank basic_latin (str "   ") (of_Z 35)). reflexivity.
Defined.

(** *** Binary64 against exact arithmetic *)

(** The bold length against exact arithmetic, for a core of fewer than
    [2^45] code units at intensity [p], with [c] the intensity clamped to
    5..90: the binary64 computation gives [max(1, ceil(n * c / 100))] unless
    [n * c] is a multiple of 100, where it may give one more (the quotient
    [c / 100] can round upwards, so that the product lands just above an
    integer). *)
Theorem bold_length_vs_exact (n : nat) (p : Z) :
  (1 <= n)%nat -> Z.of_nat n < 2 ^ 45 ->
  let c := Z.max 5 (Z.min 90 p) in
  let k := Z.of_nat (rel_index (bold_len n (effective_ratio (of_Z p))) n) in
  let K := Z.max 1 (cdiv (Z.of_nat n * c) 100) in
  K <= k <= K + 1 /\ ((Z.of_nat n * c) mod 100 <> 0 -> k = K).
Proof. apply bold_length_exact_bounds. Qed.

Lemma bold_length_vs_exact_witness :
  Z.of_nat (rel_index (bold_len 7 (effective_ratio (of_Z 35))) 7) = 3.
Proof.
  exact (proj2 (bold_length_vs_exact 7 35 ltac:(lia) ltac:(reflexivity))
               ltac:(discriminate)).
Defined.

(** *** The match *)

Lemma core_len_rest letter_or_number s :
  core_len letter_or_number (skipn (core_len letter_or_number s) s) = 0%nat.
Proof.
  assert (H : forall n t, (length t <= n)%nat ->
              core_len letter_or_number
                (skipn (core_len letter_or_number t) t) = 0%nat).
  { induction n as [|n IH]; intros t Ht.
    - destruct t; [reflexivity|simpl in Ht; lia].
    - destruct t as [|c t]; [reflexivity|]. simpl in Ht.
      cbn [core_len]. destruct (is_high c) eqn:Eh.
      + destruct t as [|lo t].
        * destruct (core_cp letter_or_number c) eqn:Ec; [reflexivity|].
          cbn [skipn core_len]. rewrite Eh, Ec. reflexivity.
        * destruct (is_low lo) eqn:El.
          -- destruct (core_cp letter_or_number (pair_cp c lo)) eqn:Ec.
             ++ cbn [skipn]. apply IH. simpl in Ht. lia.
             ++ cbn [skipn core_len]. rewrite Eh, El, Ec. reflexivity.
          -- destruct (core_cp letter_or_number c) eqn:Ec.
             ++ cbn [skipn]. apply IH. lia.
             ++ cbn [skipn core_len]. rewrite Eh, El, Ec. reflexivity.
      + destruct (core_cp letter_or_number c) eqn:Ec.
        * cbn [skipn]. apply IH. lia.
        * cbn [skipn core_len]. rewrite Eh, Ec. reflexivity. }
  apply (H (length s)). lia.
Qed.

(** The match cuts the token in two without losing a code unit; the core
    is not empty and is the longest possible one (no core character starts
    the rest); the rest has no line terminator. *)
Theorem match_core_greedy (letter_or_number : N -> bool)
  (token core rest : jsstring) :
  match_core letter_or_number token = Some (core, rest) ->
  token = core ++ rest /\ core <> [] /\
  core_len letter_or_number rest = 0%nat /\
  existsb is_line_terminator rest = false.
Proof.
  intros Hm. pose proof (match_core_Some _ _ _ _ Hm) as (Ht & Hl & H1).
  split; [exact Ht|]. split; [destruct core; [simpl in H1; lia|discriminate]|].
  unfold match_core in Hm.
  destruct (core_len letter_or_number token) as [|n] eqn:E; [discriminate|].
  destruct (forallb _ _) eqn:F; [|discriminate].
  injection Hm as _ <-. split.
  - rewrite <- E. apply core_len_rest.
  - destruct (existsb _ _) eqn:X; [|reflexivity].
    apply existsb_exists in X as (c & Hc & Lc).
    rewrite forallb_forall in F. specialize (F c Hc). rewrite Lc in F.
    discriminate.
Qed.

Lemma match_core_greedy_witness :
  str "don't," = str "don't" ++ str "," /\ str "don't" <> [] /\
  core_len basic_latin (str ",") = 0%nat /\
  existsb is_line_terminator (str ",") = false.
Proof.
  apply (match_core_greedy basic_latin (str "don't,") (str "don't") (str ",")).
  reflexivity.
Defined.

(** *** Rendering *)

(** What the reader sees after [renderText] is the raw text escaped once;
    it is the raw text itself exactly when the raw text has none of the
    five characters. *)
Theorem rendered_text_visible (letter_or_number : N -> bool)
  (raw : jsstring) (intensity : number) :
  visible_text (render_html letter_or_number raw intensity) = escapeHtml raw /\
  (visible_text (render_html letter_or_number raw intensity) = raw <->
   forallb (fun c => negb (special c)) raw = true).
Proof.
  rewrite render_html_visible. split; [reflexivity|].
  apply escapeHtml_fixed.
Qed.

Lemma number_to_string_of_Z z :
  - 2 ^ prec < z < 2 ^ prec -> number_to_string (of_Z z) = Some (dec z).
Proof.
  intros Hz. rewrite of_Z_exact by exact Hz. pose proof unit_den_pos.
  unfold number_to_string.
  rewrite Z.mod_mul, Z.div_mul by lia.
  assert (Hb : 2 ^ prec < 10 ^ 21) by reflexivity.
  destruct (Z.ltb_spec (Z.abs z) (10 ^ 21)); [reflexivity|lia].
Qed.

Lemma renderText_defined (letter_or_number : N -> bool) (p : page) :
  12 <= fontSize p <= 28 -> 12 <= lineHeight p <= 28 ->
  10 <= bionicIntensity p <= 60 ->
  exists p',
    renderText letter_or_number p = Some p' /\
    innerHTML p' =
      render_html letter_or_number (or_default (pdfRawText p) [])
        (of_Z (bionicIntensity p)) /\
    bionicLabel p' = dec (bionicIntensity p) ++ str "%" /\
    pdfRawText p' = pdfRawText p /\ fontSize p' = fontSize p /\
    lineHeight p' = lineHeight p /\ bionicIntensity p' = bionicIntensity p /\
    softToggle p' = softToggle p /\ uploadedName p' = uploadedName p.
Proof.
  intros Hf Hl Hi. unfold renderText.
  assert (H60 : 60 < 2 ^ prec) by reflexivity.
  rewrite number_to_string_of_Z by lia.
  match goal with |- context [applyStyles ?q] => set (mid := q) end.
  destruct (applyStyles_sliders mid Hf Hl) as (u & v & _ & _ & _ & _ & E).
  rewrite E. eexists. split; [reflexivity|]. simpl. repeat split.
Qed.

(** For slider values [renderText] completes: the container holds the
    formatted text, the label shows the intensity followed by a percent
    sign, and neither the controls nor the raw text change. *)
Theorem renderText_sliders (letter_or_number : N -> bool) (p : page) :
  12 <= fontSize p <= 28 -> 12 <= lineHeight p <= 28 ->
  10 <= bionicIntensity p <= 60 ->
  exists p',
    renderText letter_or_number p = Some p' /\
    innerHTML p' =
      render_html letter_or_number (or_default (pdfRawText p) [])
        (of_Z (bionicIntensity p)) /\
    bionicLabel p' = dec (bionicIntensity p) ++ str "%" /\
    pdfRawText p' = pdfRawText p /\ fontSize p' = fontSize p /\
    lineHeight p' = lineHeight p /\ bionicIntensity p' = bionicIntensity p /\
    softToggle p' = softToggle p /\ uploadedName p' = uploadedName p.
Proof. apply renderText_defined. Qed.

Lemma renderText_sliders_witness :
  exists p',
    renderText basic_latin initial_page = Some p' /\
    bionicLabel p' = str "35%".
Proof.
  destruct (renderText_sliders basic_latin initial_page
              ltac:(simpl; lia) ltac:(simpl; lia) ltac:(simpl; lia))
    as (p' & E & _ & Hb & _).
  exists p'. split; [exact E|exact Hb].
Defined.

(** Rendering again without touching a control changes nothing. *)
Theorem renderText_idempotent (letter_or_number : N -> bool) (p p' : page) :
  renderText letter_or_number p = Some p' ->
  renderText letter_or_number p' = Some p'.
Proof.
  unfold renderText, applyStyles.
  destruct (number_to_string (of_Z (bionicIntensity p))) as [shown|] eqn:En;
    [|discriminate].
  cbn [fontSize lineHeight bionicIntensity softToggle pdfRawText innerHTML
       bionicLabel uploadedName].
  destruct (toFixed2 (div (of_Z (lineHeight p)) (of_Z (fontSize p))))
    as [lh|] eqn:E1; [|discriminate].
  destruct (toFixed2 (div (of_Z (lineHeight p)) (of_Z 16)))
    as [lb|] eqn:E2; [|discriminate].
  intros H. injection H as <-.
  cbn [fontSize lineHeight bionicIntensity softToggle pdfRawText innerHTML
       bionicLabel uploadedName].
  rewrite En, E1, E2. reflexivity.
Qed.

Lemma renderText_idempotent_witness :
  exists p',
    renderText basic_latin initial_page = Some p' /\
    renderText basic_latin p' = Some p'.
Proof.
  destruct (renderText_defined basic_latin initial_page
              ltac:(simpl; lia) ltac:(simpl; lia) ltac:(simpl; lia))
    as (p' & E & _).
  exists p'. split; [exact E|].
  exact (renderText_idempotent basic_latin initial_page p' E).
Defined.

(** The line-height label does not follow the font size: [applyStyles] and
    [updateLineHeightLabel] both show the line-height value divided by 16,
    to two decimals, while the style uses the ratio to the current font
    size. *)
Theorem line_height_label_over_16 (p : page) :
  12 <= fontSize p <= 28 -> 12 <= lineHeight p <= 28 ->
  exists p' q m,
    applyStyles p = Some p' /\ updateLineHeightLabel p = Some q /\
    lineHeightLabel p' = fixed2 m /\ lineHeightLabel q = fixed2 m /\
    2 * Z.abs (m * 16 - 100 * lineHeight p) <= 16 /\
    style_lineHeight q = style_lineHeight p.
Proof.
  intros Hf Hl.
  destruct (applyStyles_sliders p Hf Hl) as (u & v & _ & _ & Ev & Nv & E).
  pose proof (slider_ratio (lineHeight p) 16 Hl ltac:(lia)) as (v' & Ev' & Bv & _).
  rewrite Ev in Ev'. injection Ev' as <-.
  eexists. eexists. exists (hundredths v). split; [exact E|].
  unfold updateLineHeightLabel. rewrite Ev, (toFixed2_nonneg v Bv).
  split; [reflexivity|]. simpl. repeat split. exact Nv.
Qed.

Lemma line_height_label_over_16_witness :
  exists p' m,
    applyStyles initial_page = Some p' /\
    lineHeightLabel p' = fixed2 m /\ 2 * Z.abs (m * 16 - 100 * 24) <= 16.
Proof.
  destruct (line_height_label_over_16 initial_page
              ltac:(simpl; lia) ltac:(simpl; lia))
    as (p' & q & m & E & _ & Hl & _ & Hm & _).
  exists p', m. split; [exact E|]. split; [exact Hl|exact Hm].
Defined.

(** When the page loads with an embedded element, its text becomes the raw
    text and is rendered at the current intensity; the file name shown is
    the [data-fname] attribute, or [Uploaded PDF] when that is missing or
    empty.  Without the element the page is left alone. *)
Theorem on_load_embedded (letter_or_number : N -> bool)
  (text : jsstring) (data_fname : option jsstring) (p p' : page) :
  on_load letter_or_number None p = Some p /\
  (on_load letter_or_number (Some (text, data_fname)) p = Some p' ->
   pdfRawText p' = Some text /\
   uploadedName p' = or_default data_fname (str "Uploaded PDF") /\
   innerHTML p' = render_html letter_or_number text (of_Z (bionicIntensity p))).
Proof.
  split; [reflexivity|]. unfold on_load. intros H.
  pose proof (renderText_innerHTML _ _ _ H) as Hh.
  unfold renderText in H.
  destruct (number_to_string _); [|discriminate].
  apply applyStyles_keeps_html in H as (_ & _ & Hu & Hr).
  cbn [uploadedName pdfRawText bionicIntensity] in *.
  rewrite Hr, Hu, Hh. destruct text; repeat split.
Qed.

Lemma on_load_embedded_witness :
  exists p',
    on_load basic_latin (Some (str "Hi", None)) initial_page = Some p' /\
    pdfRawText p' = Some (str "Hi") /\
    uploadedName p' = str "Uploaded PDF".
Proof.
  destruct (renderText_defined basic_latin
              (mkPage (Some (str "Hi")) 16 24 35 false
                 (innerHTML initial_page) [] [] [] [] []
                 (str "16") (str "1.5") (str "35%") (str "Uploaded PDF"))
              ltac:(simpl; lia) ltac:(simpl; lia) ltac:(simpl; lia))
    as (p' & E & _).
  exists p'.
  destruct (proj2 (on_load_embedded basic_latin (str "Hi") None initial_page p') E)
    as (H1 & H2 & _).
  split; [exact E|]. split; [exact H1|exact H2].
Defined.

(** *** Characters outside the Basic Multilingual Plane *)

Lemma high_surrogate_plain c :
  is_high c = true -> is_space c = false /\ special c = false.
Proof.
  unfold is_high. intros H. apply andb_true_iff in H as [H1 H2].
  apply N.leb_le in H1, H2. split.
  - unfold is_space. cbn [existsb].
    repeat match goal with
           | |- context [N.eqb c ?k] => destruct (N.eqb_spec c k); [lia|]
           end.
    destruct (N.leb_spec 8192 c); destruct (N.leb_spec c 8202);
      try reflexivity; lia.
  - unfold special, amp_c, lt_c, gt_c, quot_c, apos_c.
    repeat match goal with
           | |- context [N.eqb c ?k] => destruct (N.eqb_spec c k); [lia|]
           end.
    reflexivity.
Qed.

Lemma low_surrogate_plain c :
  is_low c = true ->
  is_space c = false /\ special c = false /\ is_line_terminator c = false /\
  is_high c = false.
Proof.
  unfold is_low. intros H. apply andb_true_iff in H as [H1 H2].
  apply N.leb_le in H1, H2. repeat split.
  - unfold is_space. cbn [existsb].
    repeat match goal with
           | |- context [N.eqb c ?k] => destruct (N.eqb_spec c k); [lia|]
           end.
    destruct (N.leb_spec 8192 c); destruct (N.leb_spec c 8202);
      try reflexivity; lia.
  - unfold special, amp_c, lt_c, gt_c, quot_c, apos_c.
    repeat match goal with
           | |- context [N.eqb c ?k] => destruct (N.eqb_spec c k); [lia|]
           end.
    reflexivity.
  - unfold is_line_terminator. cbn [existsb].
    repeat match goal with
           | |- context [N.eqb c ?k] => destruct (N.eqb_spec c k); [lia|]
           end.
    reflexivity.
  - unfold is_high. destruct (N.leb_spec 55296 c); destruct (N.leb_spec c 56319);
      try reflexivity; lia.
Qed.

(** A word that is one letter outside the Basic Multilingual Plane (a
    surrogate pair) is cut between its two code units at every intensity
    below 50: the bold part is the lone high surrogate and the normal part
    the lone low surrogate, because the length and the slices count code
    units while the pattern counts code points. *)
Theorem surrogate_pair_is_split (letter_or_number : N -> bool)
  (hi lo : N) (p : Z) :
  is_high hi = true -> is_low lo = true ->
  letter_or_number (pair_cp hi lo) = true -> p < 50 ->
  bionicWrapText letter_or_number [hi; lo] (of_Z p)
  = open_word ++ [hi] ++ close_span ++ [lo] ++ close_span.
Proof.
  intros Hh Hl Hc Hp.
  destruct (high_surrogate_plain hi Hh) as [Hs1 Hx1].
  destruct (low_surrogate_plain lo Hl) as (Hs2 & Hx2 & Ht2 & Hh2).
  assert (Hsplit : split_ws [hi; lo] = [[hi; lo]]).
  { unfold split_ws. simpl. rewrite Hs1, Hs2. reflexivity. }
  assert (Hm : match_core letter_or_number [hi; lo] = Some ([hi; lo], [])).
  { unfold match_core. simpl. unfold core_cp. rewrite Hh, Hl, Hc. reflexivity. }
  assert (Hw : ws_only [hi; lo] = false).
  { unfold ws_only. simpl. rewrite Hs1. reflexivity. }
  unfold bionicWrapText. rewrite Hsplit. simpl. rewrite app_nil_r.
  rewrite (wrap_token_core _ _ _ _ _ Hw Hm).
  pose proof (bold_length_exact_bounds 2 p ltac:(lia) ltac:(reflexivity)) as [_ Hk].
  cbv zeta in Hk. specialize (Hk ltac:(
    change (Z.of_nat 2) with 2;
    assert (5 <= Z.max 5 (Z.min 90 p) <= 49) by lia;
    intros E; apply Z.mod_divide in E; [|lia];
    destruct E as [q E]; lia)).
  assert (Hcd : cdiv (Z.of_nat 2 * Z.max 5 (Z.min 90 p)) 100 = 1).
  { change (Z.of_nat 2) with 2. unfold cdiv.
    assert (- (2 * Z.max 5 (Z.min 90 p)) / 100 = -1); [|lia].
    symmetry. apply (Z.div_unique_pos _ 100 (-1) (100 - 2 * Z.max 5 (Z.min 90 p))); lia. }
  rewrite Hcd in Hk. change (Z.max 1 1) with 1 in Hk.
  change (length [hi; lo]) with 2%nat.
  replace (rel_index (bold_len 2 (effective_ratio (of_Z p))) 2) with 1%nat by lia.
  cbn [firstn skipn]. rewrite !escapeHtml_single, escapeHtml_nil.
  rewrite !esc_char_plain by assumption. reflexivity.
Qed.

Lemma surrogate_pair_is_split_witness :
  bionicWrapText (fun cp => N.eqb cp 134071) [55362; 57271]%N (of_Z 35)
  = open_word ++ [55362%N] ++ close_span ++ [57271%N] ++ close_span.
Proof.
  apply (surrogate_pair_is_split (fun cp => N.eqb cp 134071) 55362 57271 35);
    [reflexivity|reflexivity|reflexivity|lia].
Defined.

(** *** The styles *)

(** The styles and the two labels [applyStyles] sets depend on the three
    controls only, not on what was set before; applying the styles again
    changes nothing. *)
Theorem applyStyles_stateless (p q p' q' : page) :
  fontSize p = fontSize q -> lineHeight p = lineHeight q ->
  softToggle p = softToggle q ->
  applyStyles p = Some p' -> applyStyles q = Some q' ->
  style_fontSize p' = style_fontSize q' /\
  style_lineHeight p' = style_lineHeight q' /\
  style_color p' = style_color q' /\
  style_opacity p' = style_opacity q' /\
  style_letterSpacing p' = style_letterSpacing q' /\
  fontSizeLabel p' = fontSizeLabel q' /\
  lineHeightLabel p' = lineHeightLabel q' /\
  applyStyles p' = Some p'.
Proof.
  intros Hf Hl Hs. unfold applyStyles. rewrite <- Hf, <- Hl, <- Hs.
  destruct (toFixed2 (div (of_Z (lineHeight p)) (of_Z (fontSize p))))
    as [lh|] eqn:E1; [|discriminate].
  destruct (toFixed2 (div (of_Z (lineHeight p)) (of_Z 16)))
    as [lb|] eqn:E2; [|discriminate].
  intros H H'. injection H as <-. injection H' as <-.
  cbn [fontSize lineHeight softToggle style_fontSize style_lineHeight
       style_color style_opacity style_letterSpacing fontSizeLabel
       lineHeightLabel].
  rewrite E1, E2. repeat split.
Qed.

Lemma applyStyles_stateless_witness :
  exists p', applyStyles initial_page = Some p' /\ applyStyles p' = Some p'.
Proof.
  destruct (applyStyles_sliders initial_page ltac:(simpl; lia) ltac:(simpl; lia))
    as (u & v & _ & _ & _ & _ & E).
  eexists. split; [exact E|].
  exact (proj2 (proj2 (proj2 (proj2 (proj2 (proj2 (proj2
           (applyStyles_stateless initial_page initial_page _ _
              eq_refl eq_refl eq_refl E E)))))))).
Defined.

End JSExtra.

(** ** Facts about the server *)
Module PyFacts.
Import Py.

Local Open Scope string_scope.

(** *** [rsplit] and the extension test *)

Lemma rsplit1_no_sep sep s : contains sep s = false -> rsplit1 sep s = [s].
Proof.
  induction s as [|c s IH]; simpl; [reflexivity|].
  intros H. apply orb_false_elim in H as [Hc Hs].
  rewrite (IH Hs), Hc. reflexivity.
Qed.

Lemma rsplit1_at_last sep pre ext :
  contains sep ext = false ->
  rsplit1 sep (pre ++ String sep ext) = [pre; ext].
Proof.
  intros He. induction pre as [|c pre IH]; simpl.
  - rewrite (rsplit1_no_sep sep ext He), Ascii.eqb_refl. reflexivity.
  - rewrite IH. reflexivity.
Qed.

Lemma rsplit1_sep sep s :
  contains sep s = true ->
  exists pre ext,
    rsplit1 sep s = [pre; ext] /\ s = pre ++ String sep ext /\
    contains sep ext = false.
Proof.
  induction s as [|c s IH]; simpl; [discriminate|].
  destruct (contains sep s) eqn:Hs.
  - intros _. destruct (IH eq_refl) as (pre & ext & E & -> & He).
    exists (String c pre), ext. rewrite E. auto.
  - rewrite orb_false_r. intros Hc. apply Ascii.eqb_eq in Hc as ->.
    exists "", s. rewrite (rsplit1_no_sep sep s Hs), Ascii.eqb_refl. auto.
Qed.

Lemma contains_app c a b : contains c (a ++ b) = contains c a || contains c b.
Proof.
  induction a as [|x a IH]; simpl; [reflexivity|].
  rewrite IH, orb_assoc. reflexivity.
Qed.

Lemma in_allowed s : bool_decide (s ∈ ALLOWED_EXTENSIONS) = true <-> s = "pdf".
Proof.
  rewrite bool_decide_eq_true. unfold ALLOWED_EXTENSIONS.
  apply elem_of_singleton.
Qed.

Lemma allowed_file_total f : exists b, allowed_file f = Some b.
Proof.
  unfold allowed_file. destruct (contains "." f) eqn:H; [|eauto].
  destruct (rsplit1_sep "." f H) as (pre & ext & E & _ & _).
  rewrite E. simpl. eauto.
Qed.

Lemma allowed_file_iff f :
  allowed_file f = Some true <->
  exists pre ext,
    f = pre ++ "." ++ ext /\ contains "." ext = false /\ lower ext = "pdf".
Proof.
  unfold allowed_file. split.
  - destruct (contains "." f) eqn:H; [|discriminate].
    destruct (rsplit1_sep "." f H) as (pre & ext & E & Hf & He).
    rewrite E. simpl. intros Hin. injection Hin as Hin.
    apply in_allowed in Hin. exists pre, ext. auto.
  - intros (pre & ext & -> & He & Hl).
    change (pre ++ "." ++ ext) with (pre ++ String "." ext).
    rewrite contains_app. simpl. rewrite orb_true_r.
    rewrite rsplit1_at_last by assumption. simpl.
    f_equal. apply in_allowed, Hl.
Qed.

(** *** The page loop *)

Lemma collect_texts texts acc :
  collect (List.map Returns texts) acc
  = Returns (acc ++ List.filter nonempty texts)%list.
Proof.
  revert acc. induction texts as [|t texts IH]; intros acc; simpl.
  - rewrite app_nil_r. reflexivity.
  - rewrite IH. destruct t; simpl; [reflexivity|].
    rewrite <- app_assoc. reflexivity.
Qed.

Lemma collect_raises texts e rest acc :
  collect (List.map Returns texts ++ Raises e :: rest)%list acc = Raises e.
Proof.
  revert acc. induction texts as [|t texts IH]; intros acc; simpl;
    [reflexivity|apply IH].
Qed.

(** A document is a run of pages that return, followed by nothing or by a
    page that raises. *)
Lemma document_shape (doc : document) :
  (exists texts, doc = List.map Returns texts) \/
  (exists texts e rest, doc = (List.map Returns texts ++ Raises e :: rest)%list).
Proof.
  induction doc as [|[t|e] doc IH].
  - left. exists []. reflexivity.
  - destruct IH as [(ts & ->)|(ts & e & rest & ->)].
    + left. exists (t :: ts). reflexivity.
    + right. exists (t :: ts), e, rest. reflexivity.
  - right. exists [], e, doc. reflexivity.
Qed.

Lemma join_cons sep x y l : join sep (x :: y :: l) = x ++ sep ++ join sep (y :: l).
Proof. reflexivity. Qed.

(** *** The handler *)

Section Handlers.

Variable secure_filename : string -> string.
Variable fitz_open : string -> gmap string (list Byte.byte) -> outcome document.

Local Abbreviation extract := (extract fitz_open).
Local Abbreviation extract_or_placeholder := (extract_or_placeholder fitz_open).
Local Abbreviation upload_file := (upload_file secure_filename fitz_open).
Local Abbreviation upload_path := (upload_path secure_filename).

Lemma upload_file_accepted files st file :
  files !! "file" = Some file -> filename file <> "" ->
  allowed_file (filename file) = Some true ->
  upload_file files st =
    (Returns (Html (render_template_string
                      (Some (extract_or_placeholder (upload_path file)
                               (storage (save (upload_path file) (content file) st))))
                      (secure_filename (filename file)))),
     save (upload_path file) (content file) st).
Proof.
  intros Hf Hn Ha. unfold Py.upload_file. rewrite Hf.
  apply String.eqb_neq in Hn. rewrite Hn. simpl. rewrite Ha. reflexivity.
Qed.

Lemma upload_file_rejected files st :
  files !! "file" = None \/
  (exists file, files !! "file" = Some file /\
                (filename file = "" \/ allowed_file (filename file) = Some false)) ->
  exists msg,
    upload_file files st = (Returns (Redirect "/"), flash msg st).
Proof.
  unfold Py.upload_file. intros [H|(file & H & [Hn|Ha])]; rewrite H.
  - eauto.
  - rewrite Hn. simpl. eauto.
  - destruct (String.eqb_spec (filename file) ""); simpl; [eauto|].
    rewrite Ha. eauto.
Qed.

Lemma extract_raises path files e :
  extract path files = Raises e <->
  fitz_open path files = Raises e \/
  exists texts rest,
    fitz_open path files = Returns (List.map Returns texts ++ Raises e :: rest)%list.
Proof.
  unfold Py.extract. split.
  - destruct (fitz_open path files) as [doc|e'] eqn:E.
    + destruct (document_shape doc) as [(ts & ->)|(ts & e' & rest & ->)].
      * rewrite collect_texts. discriminate.
      * rewrite collect_raises. intros H. injection H as ->. right. eauto.
    + intros H. injection H as ->. left. reflexivity.
  - intros [H|(ts & rest & H)]; rewrite H; [reflexivity|].
    rewrite collect_raises. reflexivity.
Qed.

Lemma extract_texts path files texts :
  fitz_open path files = Returns (List.map Returns texts) ->
  extract path files
  = Returns (join (newline ++ newline) (List.filter nonempty texts)).
Proof.
  intros H. unfold Py.extract. rewrite H, collect_texts. reflexivity.
Qed.

End Handlers.

(** ** The claims about the server *)

(** C5.  For an accepted upload, if [fitz.open] raises, or a page raises
    while the pages are read, the handler does not raise: it returns the
    page with status 200, and the text embedded in it is the placeholder
    [[Error extracting text: <str(e)>]]. *)
Theorem extraction_error_is_caught
  (secure_filename : string -> string)
  (fitz_open : string -> gmap string (list Byte.byte) -> outcome document)
  (files : gmap string FileStorage) (st : server) (file : FileStorage)
  (e : exn) :
  files !! "file" = Some file ->
  filename file <> "" ->
  allowed_file (filename file) = Some true ->
  (let path := upload_path secure_filename file in
   let stored := storage (save path (content file) st) in
   fitz_open path stored = Raises e \/
   exists texts rest,
     fitz_open path stored
     = Returns (List.map Returns texts ++ Raises e :: rest)%list) ->
  exists body,
    upload_file secure_filename fitz_open files st
    = (Returns (Html body),
       save (upload_path secure_filename file) (content file) st) /\
    status (Html body) = 200 /\
    embeddedRaw body
    = Some ("[Error extracting text: " ++ exn_str e ++ "]",
            secure_filename (filename file)).
Proof.
  intros Hf Hn Ha Hx. cbv zeta in Hx.
  apply (extract_raises fitz_open) in Hx.
  rewrite (upload_file_accepted _ _ _ _ _ Hf Hn Ha).
  unfold extract_or_placeholder. rewrite Hx.
  eexists. split; [reflexivity|]. split; reflexivity.
Qed.

Lemma extraction_error_is_caught_witness :
  exists body,
    upload_file (fun name => name)
      (fun _ _ => Raises {| exn_str := "cannot open broken document" |})
      {[ "file" := broken_pdf ]} (mkServer ∅ [])
    = (Returns (Html body), save "uploads/a.pdf" [] (mkServer ∅ [])) /\
    status (Html body) = 200 /\
    embeddedRaw body
    = Some ("[Error extracting text: cannot open broken document]", "a.pdf").
Proof.
  apply (extraction_error_is_caught (fun name => name)
           (fun _ _ => Raises {| exn_str := "cannot open broken document" |})
           {[ "file" := broken_pdf ]} (mkServer ∅ []) broken_pdf
           {| exn_str := "cannot open broken document" |}).
  - reflexivity.
  - discriminate.
  - reflexivity.
  - left. reflexivity.
Defined.

(** C6 (the flashed message is never shown).  A rejected upload, here a
    request with no file part, flashes its message into the session and
    answers with a 302 redirect to [/] without touching the upload
    directory; but the page the redirect leads to is rendered from a
    template that does not read the flashed messages, so it is the page a
    first visit gets, whatever was flashed. *)
Theorem rejected_upload_message_not_shown
  (secure_filename : string -> string)
  (fitz_open : string -> gmap string (list Byte.byte) -> outcome document)
  (st : server) :
  upload_file secure_filename fitz_open ∅ st
  = (Returns (Redirect "/"), flash "No file part" st) /\
  status (Redirect "/") = 302 /\
  storage (flash "No file part" st) = storage st /\
  flashes (flash "No file part" st) = (flashes st ++ ["No file part"])%list /\
  fst (index (flash "No file part" st)) = fst (index st) /\
  fst (index st) = Returns (Html {| embeddedRaw := None |}).
Proof. repeat split. Qed.

(** C8.  When the document opens and every page returns its text, the
    extracted text is the non-empty page texts, in document order, joined
    by two newlines; a page with no text adds nothing, neither text nor
    separator. *)
Theorem extract_joins_pages
  (fitz_open : string -> gmap string (list Byte.byte) -> outcome document)
  (path : string) (files : gmap string (list Byte.byte))
  (texts : list string) :
  fitz_open path files = Returns (List.map Returns texts) ->
  extract fitz_open path files
  = Returns (join (newline ++ newline) (List.filter nonempty texts)) /\
  (forall before after,
      texts = (before ++ "" :: after)%list ->
      extract fitz_open path files
      = Returns (join (newline ++ newline)
                   (List.filter nonempty (before ++ after)%list))).
Proof.
  intros H. split; [apply extract_texts, H|].
  intros before after ->. rewrite (extract_texts _ _ _ _ H).
  rewrite !List.filter_app. reflexivity.
Qed.

Lemma extract_joins_pages_witness :
  extract (fun _ _ => Returns [Returns "one"; Returns ""; Returns "two"])
    "uploads/a.pdf" ∅
  = Returns ("one" ++ newline ++ newline ++ "two").
Proof.
  exact (proj1 (extract_joins_pages
                  (fun _ _ => Returns [Returns "one"; Returns ""; Returns "two"])
                  "uploads/a.pdf" ∅ ["one"; ""; "two"] eq_refl)).
Defined.

(** C9.  For an accepted upload the file is written before the extraction
    runs: the extraction reads a directory that already holds the file, and
    when it raises, the state the handler leaves still holds the file at its
    path, with the uploaded bytes. *)
Theorem failed_extraction_keeps_file
  (secure_filename : string -> string)
  (fitz_open : string -> gmap string (list Byte.byte) -> outcome document)
  (files : gmap string FileStorage) (st : server) (file : FileStorage)
  (e : exn) :
  files !! "file" = Some file ->
  filename file <> "" ->
  allowed_file (filename file) = Some true ->
  extract fitz_open (upload_path secure_filename file)
    (storage (save (upload_path secure_filename file) (content file) st))
  = Raises e ->
  storage (save (upload_path secure_filename file) (content file) st)
    !! upload_path secure_filename file = Some (content file) /\
  storage (snd (upload_file secure_filename fitz_open files st))
    !! upload_path secure_filename file = Some (content file).
Proof.
  intros Hf Hn Ha _.
  rewrite (upload_file_accepted _ _ _ _ _ Hf Hn Ha). simpl.
  split; apply lookup_insert_eq.
Qed.

Lemma failed_extraction_keeps_file_witness :
  storage (snd (upload_file (fun name => name)
                  (fun _ _ => Raises {| exn_str := "cannot open broken document" |})
                  {[ "file" := broken_pdf ]} (mkServer ∅ [])))
    !! "uploads/a.pdf" = Some [].
Proof.
  exact (proj2 (failed_extraction_keeps_file (fun name => name)
                  (fun _ _ => Raises {| exn_str := "cannot open broken document" |})
                  {[ "file" := broken_pdf ]} (mkServer ∅ []) broken_pdf
                  {| exn_str := "cannot open broken document" |}
                  eq_refl ltac:(discriminate) eq_refl eq_refl)).
Defined.

(** C10.  [allowed_file] never raises, and accepts a name exactly when the
    name is some prefix, a dot, and an extension without a dot that
    lower-cases to [pdf].  The name [pdf], without a dot, is rejected; the
    name [.pdf], with an empty base, is accepted. *)
Theorem allowed_file_extension (f : string) :
  (exists b, allowed_file f = Some b) /\
  (allowed_file f = Some true <->
   exists pre ext,
     f = pre ++ "." ++ ext /\ contains "." ext = false /\ lower ext = "pdf") /\
  allowed_file "pdf" = Some false /\
  allowed_file ".pdf" = Some true.
Proof.
  split; [apply allowed_file_total|].
  split; [apply allowed_file_iff|].
  split; reflexivity.
Qed.

End PyFacts.

(** ** Further properties of the server *)
Module PyExtra.
Import Py PyFacts.

Local Open Scope string_scope.

(** *** [allowed_file] *)

Lemma lower_char_dot c : Ascii.eqb (lower_char c) "." = Ascii.eqb c ".".
Proof. destruct c as [[] [] [] [] [] [] [] []]; reflexivity. Qed.

Lemma lower_char_idem c : lower_char (lower_char c) = lower_char c.
Proof. destruct c as [[] [] [] [] [] [] [] []]; reflexivity. Qed.

Lemma lower_idem s : lower (lower s) = lower s.
Proof.
  induction s as [|c s IH]; simpl; [reflexivity|].
  rewrite lower_char_idem, IH. reflexivity.
Qed.

Lemma contains_dot_lower s : contains "." (lower s) = contains "." s.
Proof.
  induction s as [|c s IH]; simpl; [reflexivity|].
  rewrite lower_char_dot, IH. reflexivity.
Qed.

Lemma rsplit1_lower s :
  rsplit1 "." (lower s) = List.map lower (rsplit1 "." s).
Proof.
  induction s as [|c s IH]; simpl; [reflexivity|].
  rewrite IH, lower_char_dot.
  destruct (rsplit1 "." s) as [|h [|t [|x l]]]; simpl;
    destruct (Ascii.eqb c "."); reflexivity.
Qed.

Lemma allowed_file_lower f : allowed_file (lower f) = allowed_file f.
Proof.
  unfold allowed_file. rewrite contains_dot_lower, rsplit1_lower.
  destruct (contains "." f); [|reflexivity].
  rewrite nth_error_map.
  destruct (nth_error (rsplit1 "." f) 1); simpl; [|reflexivity].
  rewrite lower_idem. reflexivity.
Qed.

Lemma ascii_fold_lower s : ascii_fold s = lower s.
Proof.
  induction s as [|c s IH]; simpl; [reflexivity|]. rewrite IH. reflexivity.
Qed.

(** The test does not depend on the case of the ASCII letters of the name:
    two names that differ only in the case of letters A to Z get the same
    answer. *)
Theorem allowed_file_ignores_case (f g : string) :
  ascii_fold f = ascii_fold g -> allowed_file f = allowed_file g.
Proof.
  intros H. rewrite !ascii_fold_lower in H.
  rewrite <- (allowed_file_lower f), <- (allowed_file_lower g), H.
  reflexivity.
Qed.

Lemma allowed_file_ignores_case_witness :
  allowed_file "Report.PDF" = allowed_file "rEPORT.pdf".
Proof.
  apply (allowed_file_ignores_case "Report.PDF" "rEPORT.pdf"). reflexivity.
Defined.

(** Cutting at the last separator loses nothing: the pieces, put back
    around the separator, are the string; there are two pieces exactly when
    the string has the separator. *)
Theorem rsplit1_rejoin (sep : ascii) (s : string) :
  join (String sep "") (rsplit1 sep s) = s /\
  (length (rsplit1 sep s) = if contains sep s then 2 else 1)%nat.
Proof.
  destruct (contains sep s) eqn:H.
  - destruct (rsplit1_sep sep s H) as (pre & ext & E & -> & _).
    rewrite E. split; reflexivity.
  - rewrite (rsplit1_no_sep sep s H). split; reflexivity.
Qed.

(** *** The handler *)

Section Handlers.

Variable secure_filename : string -> string.
Variable fitz_open : string -> gmap string (list Byte.byte) -> outcome document.

Local Abbreviation upload_file := (upload_file secure_filename fitz_open).
Local Abbreviation upload_path := (upload_path secure_filename).

Lemma rejected_upload files st :
  files !! "file" = None \/
  (exists file, files !! "file" = Some file /\
                (filename file = "" \/ allowed_file (filename file) = Some false)) ->
  exists msg,
    upload_file files st = (Returns (Redirect "/"), flash msg st) /\
    In msg ["No file part"; "No selected file"; "Invalid file type"].
Proof.
  unfold Py.upload_file. intros [H|(file & H & [Hn|Ha])]; rewrite H.
  - eexists. split; [reflexivity|]. simpl. auto.
  - rewrite Hn. simpl. eexists. split; [reflexivity|]. simpl. auto.
  - destruct (String.eqb_spec (filename file) ""); simpl.
    + eexists. split; [reflexivity|]. simpl. auto.
    + rewrite Ha. eexists. split; [reflexivity|]. simpl. auto.
Qed.

Lemma accepted_state files st file :
  files !! "file" = Some file -> filename file <> "" ->
  allowed_file (filename file) = Some true ->
  snd (upload_file files st) = save (upload_path file) (content file) st.
Proof.
  intros Hf Hn Ha.
  rewrite (upload_file_accepted _ _ _ _ _ Hf Hn Ha). reflexivity.
Qed.

End Handlers.

(** Every rejection (no file part, empty file name, extension not allowed)
    answers with a 302 redirect to [/], adds exactly one of the three
    messages to the session and leaves the upload directory as it was. *)
Theorem rejected_upload_redirects
  (secure_filename : string -> string)
  (fitz_open : string -> gmap string (list Byte.byte) -> outcome document)
  (files : gmap string FileStorage) (st : server) :
  files !! "file" = None \/
  (exists file, files !! "file" = Some file /\
                (filename file = "" \/ allowed_file (filename file) = Some false)) ->
  exists msg,
    upload_file secure_filename fitz_open files st
    = (Returns (Redirect "/"), flash msg st) /\
    In msg ["No file part"; "No selected file"; "Invalid file type"] /\
    status (Redirect "/") = 302 /\
    storage (flash msg st) = storage st /\
    flashes (flash msg st) = (flashes st ++ [msg])%list.
Proof.
  intros H. destruct (rejected_upload secure_filename fitz_open files st H)
    as (msg & E & Hin).
  exists msg. repeat split; assumption.
Qed.

Lemma rejected_upload_redirects_witness :
  exists msg,
    upload_file (fun name => name) (fun _ _ => Returns [])
      {[ "file" := text_file ]} (mkServer ∅ [])
    = (Returns (Redirect "/"), flash msg (mkServer ∅ [])) /\
    storage (flash msg (mkServer ∅ [])) = ∅.
Proof.
  destruct (rejected_upload_redirects (fun name => name) (fun _ _ => Returns [])
              {[ "file" := text_file ]} (mkServer ∅ []))
    as (msg & E & _ & _ & Hs & _).
  - right. exists text_file. split; [reflexivity|]. right. reflexivity.
  - exists msg. split; [exact E|exact Hs].
Defined.

(** An accepted upload writes its file and nothing else: every other path
    of the upload directory keeps what it had, and no message is
    flashed. *)
Theorem accepted_upload_writes_one_file
  (secure_filename : string -> string)
  (fitz_open : string -> gmap string (list Byte.byte) -> outcome document)
  (files : gmap string FileStorage) (st : server) (file : FileStorage) :
  files !! "file" = Some file -> filename file <> "" ->
  allowed_file (filename file) = Some true ->
  let st' := snd (upload_file secure_filename fitz_open files st) in
  storage st' !! upload_path secure_filename file = Some (content file) /\
  (forall other, other <> upload_path secure_filename file ->
                 storage st' !! other = storage st !! other) /\
  flashes st' = flashes st.
Proof.
  intros Hf Hn Ha st'. unfold st'.
  rewrite (accepted_state _ _ _ _ _ Hf Hn Ha). simpl.
  split; [apply lookup_insert_eq|]. split; [|reflexivity].
  intros other Hne. apply lookup_insert_ne. congruence.
Qed.

Lemma accepted_upload_writes_one_file_witness :
  storage (snd (upload_file (fun name => name) (fun _ _ => Returns [])
                  {[ "file" := report_pdf ]} (mkServer ∅ [])))
    !! "uploads/report.PDF" = Some [Byte.x25; Byte.x50].
Proof.
  exact (proj1 (accepted_upload_writes_one_file (fun name => name)
                  (fun _ _ => Returns []) {[ "file" := report_pdf ]}
                  (mkServer ∅ []) report_pdf
                  eq_refl ltac:(discriminate) eq_refl)).
Defined.

(** Two accepted uploads whose names sanitize to the same name share one
    path: the second replaces the first, and the directory ends as if only
    the second had been uploaded. *)
Theorem same_name_overwrites
  (secure_filename : string -> string)
  (fitz_open : string -> gmap string (list Byte.byte) -> outcome document)
  (files1 files2 : gmap string FileStorage) (st : server)
  (file1 file2 : FileStorage) :
  files1 !! "file" = Some file1 -> filename file1 <> "" ->
  allowed_file (filename file1) = Some true ->
  files2 !! "file" = Some file2 -> filename file2 <> "" ->
  allowed_file (filename file2) = Some true ->
  secure_filename (filename file1) = secure_filename (filename file2) ->
  let st1 := snd (upload_file secure_filename fitz_open files1 st) in
  let st2 := snd (upload_file secure_filename fitz_open files2 st1) in
  storage st2 !! upload_path secure_filename file1 = Some (content file2) /\
  storage st2 = storage (snd (upload_file secure_filename fitz_open files2 st)).
Proof.
  intros Hf1 Hn1 Ha1 Hf2 Hn2 Ha2 Hs st1 st2. unfold st2, st1.
  rewrite !(accepted_state _ _ _ _ _ Hf2 Hn2 Ha2).
  rewrite (accepted_state _ _ _ _ _ Hf1 Hn1 Ha1).
  unfold upload_path. rewrite Hs. simpl.
  split; [apply lookup_insert_eq|apply insert_insert_eq].
Qed.

Lemma same_name_overwrites_witness :
  storage
    (snd (upload_file (fun name => name) (fun _ _ => Returns [])
            {[ "file" := report_v2 ]}
            (snd (upload_file (fun name => name) (fun _ _ => Returns [])
                    {[ "file" := report_pdf ]} (mkServer ∅ [])))))
    !! "uploads/report.PDF" = Some [Byte.x26].
Proof.
  exact (proj1 (same_name_overwrites (fun name => name) (fun _ _ => Returns [])
                  {[ "file" := report_pdf ]} {[ "file" := report_v2 ]}
                  (mkServer ∅ []) report_pdf report_v2
                  eq_refl ltac:(discriminate) eq_refl
                  eq_refl ltac:(discriminate) eq_refl eq_refl)).
Defined.

Lemma join_nonempty sep x l : nonempty x = true -> nonempty (join sep (x :: l)) = true.
Proof.
  intros H. destruct x as [|c x]; [discriminate|].
  destruct l; reflexivity.
Qed.

(** A document that opens but has no text on any page is answered with the
    page of a first visit, without the hidden element, so the script does
    not render anything; as soon as one page has text the element is there,
    with the extracted text and the sanitized name. *)
Theorem textless_pdf_has_no_element
  (secure_filename : string -> string)
  (fitz_open : string -> gmap string (list Byte.byte) -> outcome document)
  (files : gmap string FileStorage) (st : server) (file : FileStorage)
  (texts : list string) :
  files !! "file" = Some file -> filename file <> "" ->
  allowed_file (filename file) = Some true ->
  fitz_open (upload_path secure_filename file)
    (storage (save (upload_path secure_filename file) (content file) st))
  = Returns (List.map Returns texts) ->
  exists body,
    fst (upload_file secure_filename fitz_open files st) = Returns (Html body) /\
    (forallb (fun t => negb (nonempty t)) texts = true ->
     embeddedRaw body = None /\ Returns (Html body) = fst (index st)) /\
    (existsb nonempty texts = true ->
     embeddedRaw body
     = Some (join (newline ++ newline) (List.filter nonempty texts),
             secure_filename (filename file))).
Proof.
  intros Hf Hn Ha Hx.
  rewrite (upload_file_accepted _ _ _ _ _ Hf Hn Ha).
  unfold extract_or_placeholder. rewrite (extract_texts _ _ _ _ Hx).
  eexists. split; [reflexivity|]. split.
  - intros Hall.
    assert (E : List.filter nonempty texts = []).
    { clear Hx. induction texts as [|t ts IH]; [reflexivity|].
      simpl in *. apply andb_true_iff in Hall as [Ht Hts].
      destruct (nonempty t); [discriminate|]. apply IH, Hts. }
    rewrite E. split; reflexivity.
  - intros Hex.
    destruct (List.filter nonempty texts) as [|x l] eqn:E.
    + exfalso. apply existsb_exists in Hex as (t & Hin & Ht).
      assert (In t (List.filter nonempty texts))
        by (apply filter_In; split; assumption).
      rewrite E in H. destruct H.
    + assert (Hxn : nonempty x = true).
      { assert (In x (List.filter nonempty texts)) by (rewrite E; left; reflexivity).
        apply filter_In in H as [_ H]. exact H. }
      pose proof (join_nonempty (newline ++ newline) x l Hxn) as Hj.
      unfold render_template_string.
      destruct (join (newline ++ newline) (x :: l)); [discriminate|reflexivity].
Qed.

Lemma textless_pdf_has_no_element_witness :
  exists body,
    fst (upload_file (fun name => name) (fun _ _ => Returns [Returns ""; Returns ""])
           {[ "file" := scan_pdf ]} (mkServer ∅ []))
    = Returns (Html body) /\
    embeddedRaw body = None.
Proof.
  destruct (textless_pdf_has_no_element (fun name => name)
              (fun _ _ => Returns [Returns ""; Returns ""])
              {[ "file" := scan_pdf ]} (mkServer ∅ []) scan_pdf [""; ""])
    as (body & E & Hnone & _);
    [reflexivity|discriminate|reflexivity|reflexivity|].
  exists body. split; [exact E|]. exact (proj1 (Hnone eq_refl)).
Defined.

End PyExtra.

(** ** Checks on concrete inputs *)
Module Examples.
Import Num JS.

(** The number model against the machine's binary64 arithmetic. *)
Example model_agrees_with_binary64 :
  forallb agrees
    [(7, 35); (2, 35); (50, 14); (100, 7); (25, 28); (10, 90); (1, 5);
     (33, 60); (-3, 19); (0, 35)] = true.
Proof. vm_compute. reflexivity. Qed.

(** The example of the formatter's description: [Reading is fun!] at
    intensity 35 bolds [Rea], [i] and [fu]. *)
Example reading_is_fun :
  bionicWrapText basic_latin (str "Reading is fun!") (of_Z 35)
  = open_word ++ str "Rea" ++ close_span ++ str "ding" ++ close_span
    ++ str " "
    ++ open_word ++ str "i" ++ close_span ++ str "s" ++ close_span
    ++ str " "
    ++ open_word ++ str "fu" ++ close_span ++ str "n!" ++ close_span.
Proof. vm_compute. reflexivity. Qed.

(** At intensity 14 a core of 50 code units gets 8 bold ones, not the 7 of
    exact arithmetic: the binary64 product [50 * 0.14] is just above 7. *)
Example fifty_at_fourteen :
  rel_index (bold_len 50 (effective_ratio (of_Z 14))) 50 = 8%nat.
Proof. vm_compute. reflexivity. Qed.

End Examples.

